(** * Entity cache and event normalisation of the NAFF client

    A shallow embedding of the guild event processors
    ([naff/api/events/processors/guild_events.py]), the guild payload
    decomposition ([dis_snek/models/discord_objects/guild.py]), the message
    relation accessors ([naff/models/discord/message.py]) and the
    auto-moderation trigger and action classes
    ([naff/models/discord/auto_mod.py]).

    Python objects live in an explicit object store addressed by location, so
    that identity and aliasing of records are visible; processors run in a
    state-and-exception monad over the client state and leave a trace of
    their suspensions, evictions and dispatched events. *)

From Stdlib Require Import ZArith String Ascii List Bool Lia.
From stdpp Require Import base option list gmap strings.

Set Warnings "-register-all".

Open Scope Z_scope.
Open Scope string_scope.
Open Scope list_scope.

(** ** Python values *)

Module Py.

(** The values the modelled code handles: payload data as the gateway's JSON
    decoder produces it, members of the library's integer enum classes (an
    integer that also knows its class), the [MISSING] sentinel of
    [naff.client.const], and references to objects in the object store. *)
Inductive value : Type :=
| VNone
| VBool (b : bool)
| VInt (n : Z)
| VStr (s : string)
| VList (l : list value)
| VDict (d : list (string * value))
| VEnum (cls : string) (n : Z)
| VMissing
| VObj (l : nat).

(** A [dict] with string keys, in insertion order. *)
Abbreviation dict := (list (string * value)) (only parsing).

Inductive exn : Type :=
| KeyError
| TypeError
| ValueError
| AttributeError
| FetchFailed.

Inductive result (A : Type) : Type :=
| Ok (a : A)
| Raise (e : exn).
Arguments Ok {A} a.
Arguments Raise {A} e.

Definition is_ok {A} (r : result A) : bool :=
  match r with Ok _ => true | Raise _ => false end.

#[global] Instance result_ret : MRet result := fun _ a => Ok a.
#[global] Instance result_bind : MBind result := fun _ _ f r =>
  match r with Ok a => f a | Raise e => Raise e end.
#[global] Instance result_fmap : FMap result := fun _ _ f r =>
  match r with Ok a => Ok (f a) | Raise e => Raise e end.

(** A list comprehension whose body may raise: left to right, the first
    exception ends it. *)
Fixpoint map_result {A B} (f : A -> result B) (l : list A) : result (list B) :=
  match l with
  | [] => Ok []
  | x :: l' =>
      match f x with
      | Raise e => Raise e
      | Ok y => match map_result f l' with
                | Raise e => Raise e
                | Ok ys => Ok (y :: ys)
                end
      end
  end.

(** [d.get(k)] *)
Fixpoint dict_get (k : string) (d : dict) : option value :=
  match d with
  | [] => None
  | (k', v) :: d' => if String.eqb k k' then Some v else dict_get k d'
  end.

(** [d.get(k)] with Python's [None] for a missing key. *)
Definition get (k : string) (d : dict) : value :=
  match dict_get k d with Some v => v | None => VNone end.

(** [d.get(k, default)] *)
Definition get_default (k : string) (default : value) (d : dict) : value :=
  match dict_get k d with Some v => v | None => default end.

(** [d[k]] *)
Definition getitem (k : string) (d : dict) : result value :=
  match dict_get k d with Some v => Ok v | None => Raise KeyError end.

(** [del d[k]] where the key may be absent; the other entries keep their order. *)
Fixpoint dict_remove (k : string) (d : dict) : dict :=
  match d with
  | [] => []
  | (k', v) :: d' =>
      if String.eqb k k' then dict_remove k d' else (k', v) :: dict_remove k d'
  end.

(** [d[k] = v]: an existing key keeps its position, a new key goes last; the
    key is bound once afterwards. *)
Fixpoint dict_set (k : string) (v : value) (d : dict) : dict :=
  match d with
  | [] => [(k, v)]
  | (k', v') :: d' =>
      if String.eqb k k' then (k, v) :: dict_remove k d'
      else (k', v') :: dict_set k v d'
  end.

(** [d.pop(k, default)]: the value and the dict without the key. *)
Definition pop_default (k : string) (default : value) (d : dict) : value * dict :=
  (get_default k default d, dict_remove k d).

(** [d.update(new)], also [d | new]. *)
Definition dict_update (d new : dict) : dict :=
  fold_left (fun acc kv => dict_set (fst kv) (snd kv) acc) new d.

(** Truth value.  Modelled from the spec: [MISSING] is the spec's explicit
    "absent" sentinel; its class is not among the sources, and it is taken to
    be false in a condition, as [AutoModRule.modify] relies on when it tests
    its [trigger] argument, whose default is [MISSING].  An object of the
    store is an attrs instance, true like any object without a length. *)
Definition truthy (v : value) : bool :=
  match v with
  | VNone => false
  | VBool b => b
  | VInt n => negb (Z.eqb n 0)
  | VStr s => negb (String.eqb s "")
  | VList l => match l with [] => false | _ => true end
  | VDict d => match d with [] => false | _ => true end
  | VEnum _ n => negb (Z.eqb n 0)
  | VMissing => false
  | VObj _ => true
  end.

(** [v or MISSING] *)
Definition or_MISSING (v : value) : value :=
  if truthy v then v else VMissing.

(** *** The builtin [int] on payload values *)

Definition is_space (c : ascii) : bool :=
  let n := nat_of_ascii c in
  ((9 <=? n)%nat && (n <=? 13)%nat) || ((28 <=? n)%nat && (n <=? 32)%nat).

Definition digit_of (c : ascii) : option Z :=
  let n := nat_of_ascii c in
  if ((48 <=? n)%nat && (n <=? 57)%nat) then Some (Z.of_nat n - 48) else None.

Fixpoint lstrip (s : list ascii) : list ascii :=
  match s with
  | c :: s' => if is_space c then lstrip s' else s
  | [] => []
  end.

Definition strip (s : list ascii) : list ascii :=
  rev (lstrip (rev (lstrip s))).

(** Digits with single underscores between them; [acc] is the number read so
    far and [after_digit] tells whether the previous character was a digit. *)
Fixpoint digits (s : list ascii) (acc : Z) (after_digit : bool) : option Z :=
  match s with
  | [] => if after_digit then Some acc else None
  | c :: s' =>
      match digit_of c with
      | Some d => digits s' (10 * acc + d) true
      | None =>
          if (Ascii.eqb c "_" && after_digit)%bool
          then match s' with
               | [] => None
               | _ => digits s' acc false
               end
          else None
      end
  end.

Definition int_of_string (s : string) : option Z :=
  match strip (list_ascii_of_string s) with
  | [] => None
  | c :: s' =>
      if Ascii.eqb c "-" then Z.opp <$> digits s' 0 false
      else if Ascii.eqb c "+" then digits s' 0 false
      else digits (c :: s') 0 false
  end.

(** [int(v)]: numbers and booleans convert, ASCII decimal strings parse,
    anything else raises. *)
Definition py_int (v : value) : result Z :=
  match v with
  | VInt n => Ok n
  | VBool b => Ok (if b then 1 else 0)
  | VStr s => match int_of_string s with Some n => Ok n | None => Raise ValueError end
  | VNone | VList _ | VDict _ | VMissing | VObj _ => Raise TypeError
  | VEnum _ n => Ok n
  end.

(** What a [for] loop or a comprehension iterates over: the items of a list,
    the keys of a dict, the characters of a string. *)
Definition iterate (v : value) : result (list value) :=
  match v with
  | VList l => Ok l
  | VDict d => Ok (map (fun kv => VStr (fst kv)) d)
  | VStr s => Ok (map (fun c => VStr (String c EmptyString)) (list_ascii_of_string s))
  | VNone | VBool _ | VInt _ | VEnum _ _ | VMissing | VObj _ => Raise TypeError
  end.

End Py.

(** ** Auto-moderation actions and triggers ([auto_mod.py]) *)

Module AutoMod.
Import Py.

(** The enum classes [AutoModTriggerType], [AutoModAction] and
    [AutoModLanuguageType] are imported from [naff.models.discord.enums],
    which is not among the sources.  What the code below needs of them is
    taken as a parameter: the numbers of the members it names, and for each
    class the result of calling the class on a value that is not yet one of
    its members ([None] when the call raises [ValueError]). *)
Class EnumDecls : Type := {
  KEYWORD : Z;
  HARMFUL_LINK : Z;
  KEYWORD_PRESET : Z;
  MENTION_SPAM : Z;
  BLOCK_MESSAGE : Z;
  ALERT_MESSAGE : Z;
  TIMEOUT_USER : Z;
  enum_value : string -> value -> option Z
}.

(** The classes of the module that [ACTION_MAPPING] and [TRIGGER_MAPPING]
    range over, with their two base classes. *)
Inductive class : Type :=
| BaseAction
| BlockMessage
| AlertMessage
| TimeoutUser
| BaseTrigger
| KeywordTrigger
| HarmfulLinkFilter
| KeywordPresetTrigger
| MentionSpamTrigger.

#[global] Instance class_eq_dec : EqDecision class.
Proof. solve_decision. Defined.

Definition is_trigger (c : class) : bool :=
  match c with
  | BaseTrigger | KeywordTrigger | HarmfulLinkFilter
  | KeywordPresetTrigger | MentionSpamTrigger => true
  | _ => false
  end.

(** One [field(...)] of an attrs class: its name, its default (or factory
    result) when it has one, and its converter. *)
Record attrib : Type := Attrib {
  a_name : string;
  a_default : option value;
  a_converter : value -> result value
}.

(** An instance of one of the classes: its class and its attribute values in
    the order attrs lists them. *)
Record instance : Type := Instance {
  cls_of : class;
  attrs_of : dict
}.

(** What a factory call leaves behind: the payloads it passed to
    [logger.error], oldest first, and its result. *)
Record outcome : Type := Outcome {
  logged : list dict;
  returned : result instance
}.

(** The integer a value hashes and compares as when it is looked up in a
    dict keyed by [IntEnum] members; [None] for a hashable value that equals
    no integer, [TypeError] for an unhashable one. *)
Definition int_key (v : value) : result (option Z) :=
  match v with
  | VInt n => Ok (Some n)
  | VEnum _ n => Ok (Some n)
  | VBool b => Ok (Some (if b then 1 else 0))
  | VNone => Ok None
  | VStr _ => Ok None
  | VMissing => Ok None
  | VObj _ => Ok None
  | VList _ => Raise TypeError
  | VDict _ => Raise TypeError
  end.

(** A dict display [{k1: c1, k2: c2, ...}] with integer keys: a repeated key
    keeps its first position and takes the last value. *)
Fixpoint mapping_set (k : Z) (c : class) (m : list (Z * class)) : list (Z * class) :=
  match m with
  | [] => [(k, c)]
  | (k', c') :: m' =>
      if Z.eqb k k' then (k, c) :: m' else (k', c') :: mapping_set k c m'
  end.

Definition mapping_of (entries : list (Z * class)) : list (Z * class) :=
  fold_left (fun m kc => mapping_set (fst kc) (snd kc) m) entries [].

Fixpoint mapping_lookup (k : Z) (m : list (Z * class)) : option class :=
  match m with
  | [] => None
  | (k', c) :: m' => if Z.eqb k k' then Some c else mapping_lookup k m'
  end.

(** [m.get(v)] *)
Definition mapping_get (m : list (Z * class)) (v : value) : result (option class) :=
  match int_key v with
  | Raise e => Raise e
  | Ok None => Ok None
  | Ok (Some n) => Ok (mapping_lookup n m)
  end.

Definition _keyword_converter (filter : value) : result value :=
  match filter with
  | VList _ => Ok filter
  | _ => Ok (VList [filter])
  end.

(** Modelled from the spec: [list_converter] of [naff.client.utils] is not
    among the sources and the spec has no words for it; from its name and
    its use on [keyword_lists] it converts every element of a list, and a
    value that is not a list as a list of that one element. *)
Definition list_converter (converter : value -> result value) (v : value) : result value :=
  match v with
  | VList l => VList <$> map_result converter l
  | _ => (fun x => VList [x]) <$> converter v
  end.

Section Classes.
Context {E : EnumDecls}.

(** Calling an enum class: a member of the class is returned as it is. *)
Definition enum_call (cls : string) (v : value) : result value :=
  let lookup := match enum_value cls v with
                | Some n => Ok (VEnum cls n)
                | None => Raise ValueError
                end in
  match v with
  | VEnum c _ => if String.eqb c cls then Ok v else lookup
  | _ => lookup
  end.

Definition AutoModTriggerType : value -> result value := enum_call "AutoModTriggerType".
Definition AutoModAction : value -> result value := enum_call "AutoModAction".
Definition AutoModLanuguageType : value -> result value := enum_call "AutoModLanuguageType".

Definition trigger_type_field (default : option Z) : attrib :=
  Attrib "type" (VEnum "AutoModTriggerType" <$> default) AutoModTriggerType.

Definition action_type_field (default : option Z) : attrib :=
  Attrib "type" (VEnum "AutoModAction" <$> default) AutoModAction.

(** The attributes of each class, in attrs' order: inherited ones first
    unless the class declares them again, then the class's own. *)
Definition fields (c : class) : list attrib :=
  match c with
  | BaseAction => [action_type_field None]
  | BlockMessage => [action_type_field (Some BLOCK_MESSAGE)]
  | AlertMessage =>
      [Attrib "channel_id" None Ok; action_type_field (Some ALERT_MESSAGE)]
  | TimeoutUser =>
      [Attrib "duration_seconds" (Some (VInt 60)) Ok;
       action_type_field (Some TIMEOUT_USER)]
  | BaseTrigger => [trigger_type_field None]
  | KeywordTrigger =>
      [trigger_type_field (Some KEYWORD);
       Attrib "keyword_filter" (Some (VList [])) _keyword_converter]
  | HarmfulLinkFilter => [trigger_type_field (Some HARMFUL_LINK)]
  | KeywordPresetTrigger =>
      [trigger_type_field (Some KEYWORD_PRESET);
       Attrib "keyword_lists" (Some (VList [])) (list_converter AutoModLanuguageType)]
  | MentionSpamTrigger =>
      [trigger_type_field None;
       Attrib "mention_total_limit" (Some (VInt 3)) Ok]
  end.

Definition ACTION_MAPPING : list (Z * class) :=
  mapping_of [(BLOCK_MESSAGE, BlockMessage);
              (ALERT_MESSAGE, AlertMessage);
              (TIMEOUT_USER, TimeoutUser)].

Definition TRIGGER_MAPPING : list (Z * class) :=
  mapping_of [(KEYWORD, KeywordTrigger);
              (HARMFUL_LINK, HarmfulLinkFilter);
              (KEYWORD_PRESET, KeywordPresetTrigger);
              (MENTION_SPAM, MentionSpamTrigger)].

Definition is_field (c : class) (k : string) : bool :=
  existsb (fun a => String.eqb k (a_name a)) (fields c).

(** The argument bound to an attribute by a keyword call: the keyword when it
    is given, else the default, else [TypeError] for the missing argument. *)
Definition init_value (kwargs : dict) (a : attrib) : result value :=
  match dict_get (a_name a) kwargs with
  | Some v => Ok v
  | None =>
      match a_default a with
      | Some d => Ok d
      | None => Raise TypeError
      end
  end.

(** The class called with the entries of [kwargs] as keyword arguments, as
    attrs generates it: the arguments are bound first, then every attribute
    is set to its converted argument, in order. *)
Definition construct (c : class) (kwargs : dict) : result instance :=
  if existsb (fun kv => negb (is_field c (fst kv))) kwargs then Raise TypeError
  else
    args ← map_result (init_value kwargs) (fields c);
    vals ← map_result (fun av => a_converter (fst av) (snd av)) (combine (fields c) args);
    Ok (Instance c (combine (map a_name (fields c)) vals)).

(** [BaseTrigger._process_dict], inherited by every trigger class; the
    classes of actions keep the mixin's, which hands the payload back. *)
Definition _process_dict (c : class) (data : dict) : result dict :=
  if is_trigger c then
    let meta := get "trigger_metadata" data in
    if truthy meta then
      match meta with
      | VDict m => Ok (dict_update data m)
      | _ => Raise AttributeError
      end
    else Ok data
  else Ok data.

(** Modelled from the spec: [DictSerializationMixin] of
    [naff.client.mixins.serialization] is not among the sources and the spec
    leaves serialization at the boundary.  Its [from_dict] is taken to pass
    the payload through the class's [_process_dict] hook and to call the
    class with the entries that name one of its attributes: the hook is
    overridden in the source for that purpose, and the payload the trigger
    factory builds always carries a key that no class declares. *)
Definition from_dict (c : class) (data : dict) : result instance :=
  data' ← _process_dict c data;
  construct c (List.filter (fun kv => is_field c (fst kv)) data').

(** [attrs.asdict(self)]: values here are immutable trees, so the copy attrs
    makes of lists and dicts is the value itself. *)
Definition asdict (o : instance) : dict := attrs_of o.

(** [{k: data.pop(k) for k, v in data.copy().items() if k != "type"}]: the
    comprehension's dict and what is left of [data]. *)
Fixpoint pop_fields (items : dict) (acc data : dict) : result (dict * dict) :=
  match items with
  | [] => Ok (acc, data)
  | (k, _) :: items' =>
      if String.eqb k "type" then pop_fields items' acc data
      else
        match getitem k data with
        | Raise e => Raise e
        | Ok v => pop_fields items' (dict_set k v acc) (dict_remove k data)
        end
  end.

Definition BaseAction_as_dict (o : instance) : result dict :=
  let data := asdict o in
  '(meta, data) ← pop_fields data [] data;
  Ok (dict_set "metadata" (VDict meta) data).

Definition BaseTrigger_as_dict (o : instance) : result dict :=
  let data := asdict o in
  '(meta, data) ← pop_fields data [] data;
  let data := dict_set "trigger_metadata" (VDict meta) data in
  t ← getitem "type" data;
  Ok (dict_set "trigger_type" t (dict_remove "type" data)).

Definition as_dict (o : instance) : result dict :=
  if is_trigger (cls_of o) then BaseTrigger_as_dict o else BaseAction_as_dict o.

(** [BaseAction.from_dict_factory], called on class [cls]. *)
Definition BaseAction_from_dict_factory (cls : class) (data : dict) : outcome :=
  match mapping_get ACTION_MAPPING (get "type" data) with
  | Raise e => Outcome [] (Raise e)
  | Ok found =>
      let log := match found with Some _ => [] | None => [data] end in
      let action_class := match found with Some c => c | None => cls end in
      Outcome log
        (metadata ← getitem "metadata" data;
         match metadata with
         | VDict m => from_dict action_class (dict_update [("type", get "type" data)] m)
         | _ => Raise TypeError
         end)
  end.

(** [BaseTrigger.from_dict_factory], called on class [cls]. *)
Definition BaseTrigger_from_dict_factory (cls : class) (data : dict) : outcome :=
  match mapping_get TRIGGER_MAPPING (get "trigger_type" data) with
  | Raise e => Outcome [] (Raise e)
  | Ok found =>
      let meta := get_default "trigger_metadata" (VDict []) data in
      let log := match found with Some _ => [] | None => [data] end in
      let trigger_class := match found with Some c => c | None => cls end in
      let payload := [("type", get "trigger_type" data); ("trigger_metadata", meta)] in
      Outcome log (from_dict trigger_class payload)
  end.

End Classes.

(** An instance of the enum declarations, for running the definitions: the
    members get the numbers 1 to 5 and 1 to 3, and each class keeps an
    integer it has no member for as a member of its own. *)
Definition open_enums : EnumDecls := {|
  KEYWORD := 1;
  HARMFUL_LINK := 2;
  KEYWORD_PRESET := 4;
  MENTION_SPAM := 5;
  BLOCK_MESSAGE := 1;
  ALERT_MESSAGE := 2;
  TIMEOUT_USER := 3;
  enum_value := fun _ v => match v with
                           | VInt n => Some n
                           | VEnum _ n => Some n
                           | _ => None
                           end
|}.

(** The same numbers with classes that accept their members' numbers only. *)
Definition closed_enums : EnumDecls := {|
  KEYWORD := 1;
  HARMFUL_LINK := 2;
  KEYWORD_PRESET := 4;
  MENTION_SPAM := 5;
  BLOCK_MESSAGE := 1;
  ALERT_MESSAGE := 2;
  TIMEOUT_USER := 3;
  enum_value := fun cls v =>
    match v with
    | VInt n =>
        if String.eqb cls "AutoModTriggerType"
        then (if existsb (Z.eqb n) [1; 2; 4; 5] then Some n else None)
        else if String.eqb cls "AutoModAction"
        then (if existsb (Z.eqb n) [1; 2; 3] then Some n else None)
        else None
    | _ => None
    end
|}.

End AutoMod.

(** ** The client state: object store, entity cache, trace *)

Module Store.
Import Py.

(** Modelled from the spec: [to_snowflake] of
    [naff.models.discord.snowflake] is not among the sources.  The spec's
    identifier is "a 64-bit unsigned integer value with a well-defined
    string/numeric equivalence": a number or its decimal string converts to
    the number, and nothing outside 64 bits is an identifier. *)
Definition to_snowflake (v : value) : result Z :=
  n ← py_int v;
  if ((0 <=? n) && (n <? 2 ^ 64))%Z then Ok n else Raise ValueError.

(** The key of a record in the entity store: its kind with its identifier,
    guild-scoped kinds with the guild's identifier first. *)
Inductive key : Type :=
| KGuild (id : Z)
| KChannel (id : Z)
| KUser (id : Z)
| KMember (guild_id id : Z)
| KRole (guild_id id : Z).

#[global] Instance key_eq_dec : EqDecision key.
Proof. solve_decision. Defined.

Definition key_code (k : key) : Z * (Z * Z) :=
  match k with
  | KGuild id => (0, (id, 0))
  | KChannel id => (1, (id, 0))
  | KUser id => (2, (id, 0))
  | KMember g id => (3, (g, id))
  | KRole g id => (4, (g, id))
  end.

Definition key_decode (c : Z * (Z * Z)) : option key :=
  match c with
  | (0, (id, _)) => Some (KGuild id)
  | (1, (id, _)) => Some (KChannel id)
  | (2, (id, _)) => Some (KUser id)
  | (3, (g, id)) => Some (KMember g id)
  | (4, (g, id)) => Some (KRole g id)
  | _ => None
  end.

#[global] Instance key_countable : Countable key.
Proof. apply (inj_countable key_code key_decode). by intros []. Defined.

(** Whether a key belongs to a guild: the guild's own record and its
    guild-scoped records. *)
Definition key_of_guild (guild_id : Z) (k : key) : bool :=
  match k with
  | KGuild id => Z.eqb id guild_id
  | KMember g _ => Z.eqb g guild_id
  | KRole g _ => Z.eqb g guild_id
  | KChannel _ => false
  | KUser _ => false
  end.

(** The events the guild processors dispatch; the classes are declared in
    [naff.api.events.discord], which is not among the sources, and carry
    their arguments as they are given. *)
Inductive event : Type :=
| GuildJoin (guild : value)
| GuildUpdate (before after : value)
| GuildUnavailable (guild_id : Z) (guild : value)
| GuildLeft (guild_id : Z) (guild : value)
| BanCreate (guild_id user : value)
| BanRemove (guild_id user : value)
| IntegrationCreate (integration : value)
| IntegrationUpdate (integration : value)
| IntegrationDelete (guild_id id application_id : value)
| GuildEmojisUpdate (guild_id : value) (before after : list value)
| GuildStickersUpdate (guild_id : value) (stickers : list value)
| WebhooksUpdate (guild_id channel_id : value).

(** What a coroutine can be suspended on. *)
Inductive awaited : Type :=
| MemberChunks (guild : nat)
| OriginGuild (guild_id : Z).

(** The observable steps of a processor, in the order they happen. *)
Inductive action : Type :=
| Suspend (on : awaited)
| Evict (guild_id : Z)
| Dispatch (e : event).

(** The state a processor runs in.  [heap] is the object store: an object is
    its position in the list and holds the fields of a record.  [entities]
    is the cache of every kind but emoji, [emoji_cache] is [None] when the
    emoji cache is disabled.  [origin] is the origin service's answer to a
    guild request, [None] when the request fails. *)
Record client : Type := Client {
  heap : list dict;
  entities : gmap key nat;
  emoji_cache : option (gmap Z nat);
  guild_ids : gset Z;
  fetch_members : bool;
  guild_event : bool;
  chunked : gset nat;
  origin : Z -> option dict;
  trace : list action
}.

Definition set_heap (h : list dict) (st : client) : client :=
  Client h (entities st) (emoji_cache st) (guild_ids st) (fetch_members st)
         (guild_event st) (chunked st) (origin st) (trace st).

Definition set_entities (m : gmap key nat) (st : client) : client :=
  Client (heap st) m (emoji_cache st) (guild_ids st) (fetch_members st)
         (guild_event st) (chunked st) (origin st) (trace st).

Definition set_emoji_cache (m : option (gmap Z nat)) (st : client) : client :=
  Client (heap st) (entities st) m (guild_ids st) (fetch_members st)
         (guild_event st) (chunked st) (origin st) (trace st).

Definition set_guild_ids (ids : gset Z) (st : client) : client :=
  Client (heap st) (entities st) (emoji_cache st) ids (fetch_members st)
         (guild_event st) (chunked st) (origin st) (trace st).

Definition set_guild_event (b : bool) (st : client) : client :=
  Client (heap st) (entities st) (emoji_cache st) (guild_ids st) (fetch_members st)
         b (chunked st) (origin st) (trace st).

Definition set_chunked (c : gset nat) (st : client) : client :=
  Client (heap st) (entities st) (emoji_cache st) (guild_ids st) (fetch_members st)
         (guild_event st) c (origin st) (trace st).

Definition set_trace (t : list action) (st : client) : client :=
  Client (heap st) (entities st) (emoji_cache st) (guild_ids st) (fetch_members st)
         (guild_event st) (chunked st) (origin st) t.

(** A client that has cached and done nothing. *)
Definition fresh_client (fetch : bool) (emoji : bool) (net : Z -> option dict) : client :=
  Client [] ∅ (if emoji then Some ∅ else None) ∅ fetch false ∅ net [].

(** *** Computations over the client: state, and exceptions that keep it *)

Definition M (A : Type) : Type := client -> result A * client.

#[global] Instance M_ret : MRet M := fun _ a st => (Ok a, st).
#[global] Instance M_bind : MBind M := fun _ _ f m st =>
  match m st with
  | (Ok a, st') => f a st'
  | (Raise e, st') => (Raise e, st')
  end.

Definition lift {A} (r : result A) : M A := fun st => (r, st).
Definition gets {A} (f : client -> A) : M A := fun st => (Ok (f st), st).
Definition modify (f : client -> client) : M unit := fun st => (Ok tt, f st).
Definition emit (a : action) : M unit := modify (fun st => set_trace (trace st ++ [a]) st).

(** A comprehension whose body runs in the client. *)
Fixpoint for_each {A B} (f : A -> M B) (l : list A) : M (list B) :=
  match l with
  | [] => mret []
  | x :: l' => y ← f x; ys ← for_each f l'; mret (y :: ys)
  end.

(** [self.dispatch(event)]: hands the event to the listeners, which run
    later; the call itself returns at once. *)
Definition dispatch (e : event) : M unit := emit (Dispatch e).

(** *** Objects *)

(** A new object with the given fields. *)
Definition alloc (fields : dict) : M nat := fun st =>
  (Ok (length (heap st)), set_heap (heap st ++ [fields]) st).

(** The fields of an object. *)
Definition fields_of (l : nat) (st : client) : dict := default [] (heap st !! l).

(** [obj.name] for a field of a record. *)
Definition getattr (l : nat) (name : string) : M value := fun st =>
  match dict_get name (fields_of l st) with
  | Some v => (Ok v, st)
  | None => (Raise AttributeError, st)
  end.

(** [obj.name = v] *)
Definition setattr (l : nat) (name : string) (v : value) : M unit :=
  modify (fun st => set_heap (alter (dict_set name v) l (heap st)) st).

(** [copy.copy(v)]: a new object with the same field values for an object,
    the value itself for [None] and the other immutable values. *)
Definition copy (v : value) : M value :=
  match v with
  | VObj l => st ← gets (fun st => st); l' ← alloc (fields_of l st); mret (VObj l')
  | _ => mret v
  end.

(** *** The entity store *)

(** Modelled from the spec: the cache class of the client is not among the
    sources.  [put(kind, id, fields)] "merges [fields] into the existing
    record for [(kind, id)], creating it if absent": an existing record is
    updated in place, so every holder of the object sees the new fields. *)
Definition put (k : key) (fields : dict) : M nat := fun st =>
  match entities st !! k with
  | Some l =>
      (Ok l, set_heap (alter (fun old => dict_update old fields) l (heap st)) st)
  | None =>
      let l := length (heap st) in
      (Ok l, set_entities (<[k := l]> (entities st)) (set_heap (heap st ++ [fields]) st))
  end.

(** Modelled from the spec: [get(kind, id) -> record | absent],
    "non-blocking, returns immediately; never triggers network I/O";
    anything that is not an identifier resolves to absence. *)
Definition get_entity (kind : Z -> key) (id : value) : M value := fun st =>
  match to_snowflake id with
  | Ok n =>
      match entities st !! kind n with
      | Some l => (Ok (VObj l), st)
      | None => (Ok VNone, st)
      end
  | Raise _ => (Ok VNone, st)
  end.

Definition get_guild : value -> M value := get_entity KGuild.
Definition get_channel : value -> M value := get_entity KChannel.
Definition get_user : value -> M value := get_entity KUser.

(** Modelled from the spec: [get_guild_scoped(kind, guild_id, id)], "same
    contract, two-level lookup". *)
Definition get_member (guild_id id : value) : M value := fun st =>
  match to_snowflake guild_id with
  | Ok g => get_entity (KMember g) id st
  | Raise _ => (Ok VNone, st)
  end.

(** Modelled from the spec: the emoji accessor of the cache; the source
    calls it with the emoji's identifier alone.  A disabled cache holds
    nothing. *)
Definition get_emoji (id : value) : M value := fun st =>
  match to_snowflake id, emoji_cache st with
  | Ok n, Some m =>
      match m !! n with
      | Some l => (Ok (VObj l), st)
      | None => (Ok VNone, st)
      end
  | _, _ => (Ok VNone, st)
  end.

(** A payload that is subscripted with a string must be a dict. *)
Definition as_payload (v : value) : result dict :=
  match v with
  | VDict d => Ok d
  | _ => Raise TypeError
  end.

(** The identifier an embedded object carries. *)
Definition payload_id (d : dict) : result Z :=
  id ← getitem "id" d; to_snowflake id.

(** Modelled from the spec: the cache's [place_*_data] methods.  Each is the
    spec's [put] for its kind, at the identifier the payload carries, and
    returns the record, whose [id] is that identifier.  Channels, members,
    roles and users have no relation fields in this model. *)
Definition place (kind : Z -> key) (data : value) : M nat :=
  d ← lift (as_payload data);
  id ← lift (payload_id d);
  put (kind id) (dict_set "id" (VInt id) d).

Definition place_channel_data : value -> M nat := place KChannel.
Definition place_user_data : value -> M nat := place KUser.

Definition place_member_data (guild_id : value) (data : value) : M nat :=
  g ← lift (to_snowflake guild_id);
  place (KMember g) data.

(** [roles[k] = l] on the dict a call of [place_role_data] returns. *)
Fixpoint roles_set (k : Z) (l : nat) (roles : list (Z * nat)) : list (Z * nat) :=
  match roles with
  | [] => [(k, l)]
  | (k', l') :: roles' =>
      if Z.eqb k k' then (k, l) :: roles' else (k', l') :: roles_set k l roles'
  end.

Fixpoint place_roles (g : Z) (items : list value) (roles : list (Z * nat))
  : M (list (Z * nat)) :=
  match items with
  | [] => mret roles
  | role_data :: items' =>
      d ← lift (as_payload role_data);
      id ← lift (payload_id d);
      l ← put (KRole g id) (dict_set "id" (VInt id) d);
      place_roles g items' (roles_set id l roles)
  end.

(** Modelled from the spec: [place_role_data(guild_id, roles)] places every
    role of the list and returns a dict from role identifier to record; that
    it is a dict is what [Guild.process_dict] relies on when it takes its
    [keys()]. *)
Definition place_role_data (guild_id : value) (data : value) : M (list (Z * nat)) :=
  g ← lift (to_snowflake guild_id);
  items ← lift (iterate data);
  place_roles g items [].

(** Modelled from the spec: [place_emoji_data(guild_id, data)] builds the
    emoji's record, which knows its guild, and stores it under the emoji's
    identifier unless the emoji cache is disabled. *)
Definition place_emoji_data (guild_id : value) (data : value) : M nat := fun st =>
  match to_snowflake guild_id, as_payload data with
  | Raise e, _ => (Raise e, st)
  | _, Raise e => (Raise e, st)
  | Ok g, Ok d =>
      match payload_id d with
      | Raise e => (Raise e, st)
      | Ok id =>
          let fields := dict_set "guild_id" (VInt g) (dict_set "id" (VInt id) d) in
          match emoji_cache st with
          | None => alloc fields st
          | Some m =>
              match m !! id with
              | Some l =>
                  (Ok l, set_heap (alter (fun old => dict_update old fields) l (heap st)) st)
              | None =>
                  let l := length (heap st) in
                  (Ok l, set_emoji_cache (Some (<[id := l]> m))
                           (set_heap (heap st ++ [fields]) st))
              end
          end
      end
  end.

(** Whether an emoji record belongs to a guild. *)
Definition emoji_of_guild (h : list dict) (guild_id : Z) (l : nat) : bool :=
  match dict_get "guild_id" (default [] (h !! l)) with
  | Some (VInt g) => Z.eqb g guild_id
  | _ => false
  end.

(** Modelled from the spec: [delete_guild(guild_id)] "atomically drops an
    entire guild sub-store (members, roles, emoji, voice states for that
    guild) plus the guild record itself"; the objects stay in the object
    store for whoever still holds them.  Voice states have no store here:
    nothing in the modelled sources creates one. *)
Definition delete_guild (guild_id : Z) : M unit := fun st =>
  let kept := filter (fun kl => key_of_guild guild_id (fst kl) = false) (entities st) in
  let emoji := filter (fun il => emoji_of_guild (heap st) guild_id (snd il) = false)
               <$> emoji_cache st in
  (Ok tt, set_trace (trace st ++ [Evict guild_id])
            (set_emoji_cache emoji (set_entities kept st))).

(** Modelled from the spec: [from_dict] of [GuildIntegration] and of
    [Sticker], whose classes are not among the sources: the record built
    from a payload, held by the event alone. *)
Definition record_from_dict (data : value) : M nat :=
  d ← lift (as_payload data);
  alloc d.

End Store.

(** ** Guild payload decomposition ([guild.py]) *)

Module Guild.
Import Py Store.

(** [Guild.process_dict(data, client)] *)
Definition process_dict (data : dict) : M dict :=
  guild_id ← lift (getitem "id" data);

  let (channels_data, data) := pop_default "channels" (VList []) data in
  items ← lift (iterate channels_data);
  channel_ids ← for_each (fun channel_data =>
                   c ← place_channel_data channel_data; getattr c "id") items;
  let data := dict_set "channel_ids" (VList channel_ids) data in

  let (threads_data, data) := pop_default "threads" (VList []) data in
  items ← lift (iterate threads_data);
  thread_ids ← for_each (fun thread_data =>
                  c ← place_channel_data thread_data; getattr c "id") items;
  let data := dict_set "thread_ids" (VList thread_ids) data in

  let (members_data, data) := pop_default "members" (VList []) data in
  items ← lift (iterate members_data);
  member_ids ← for_each (fun member_data =>
                  m ← place_member_data guild_id member_data; getattr m "id") items;
  let data := dict_set "member_ids" (VList member_ids) data in

  let (roles_data, data) := pop_default "roles" (VList []) data in
  roles ← place_role_data guild_id roles_data;
  let data := dict_set "role_ids" (VList (map (fun kl => VInt (fst kl)) roles)) data in

  mret data.

(** Modelled from the spec: [place_guild_data] of the cache, which is not
    among the sources: "decompose payload, [put] into Store"; the normalized
    payload "is then used to construct/merge the parent's own Entity
    Record". *)
Definition place_guild_data (data : value) : M nat :=
  d ← lift (as_payload data);
  normalized ← process_dict d;
  id ← lift (payload_id normalized);
  put (KGuild id) (dict_set "id" (VInt id) normalized).

(** Modelled from the spec: [fetch_guild] of the cache, the asynchronous
    accessor, which "returns the cached record if present, otherwise issues
    exactly one fetch to the external origin layer, stores the result via
    the Entity Store, and returns it"; a failed fetch is "surfaced to the
    asynchronous proxy caller as a typed failure".  The coroutine is
    suspended while the request is out, and only then. *)
Definition fetch_guild (id : value) : M value :=
  guild_id ← lift (to_snowflake id);
  cached ← gets (fun st => entities st !! KGuild guild_id);
  match cached with
  | Some l => mret (VObj l)
  | None =>
      emit (Suspend (OriginGuild guild_id));;
      answer ← gets (fun st => origin st guild_id);
      match answer with
      | Some data => l ← place_guild_data (VDict data); mret (VObj l)
      | None => lift (Raise FetchFailed)
      end
  end.

(** [guild.chunked.is_set()] *)
Definition chunked_is_set (guild : nat) : M bool :=
  gets (fun st => bool_decide (guild ∈ chunked st)).

(** Modelled from the spec: [guild.chunk()], which is not among the
    sources, requests the guild's members and waits on the guild's chunking
    latch: the caller is suspended, and is resumed once the latch is set. *)
Definition chunk (guild : nat) : M unit :=
  emit (Suspend (MemberChunks guild));;
  modify (fun st => set_chunked ({[guild]} ∪ chunked st) st).

End Guild.

(** ** The guild event processors ([guild_events.py]) *)

Module GuildEvents.
Import Py Store Guild.

(** Each processor takes [event.data], the payload of the raw gateway
    event. *)

Definition _on_raw_guild_create (data : dict) : M unit :=
  guild ← place_guild_data (VDict data);
  id ← lift (to_snowflake (get "id" data));
  modify (fun st => set_guild_ids ({[id]} ∪ guild_ids st) st);;
  modify (set_guild_event true);;
  fetch_members ← gets fetch_members;
  is_set ← chunked_is_set guild;
  (if fetch_members && negb is_set then chunk guild else mret tt);;
  dispatch (GuildJoin (VObj guild)).

Definition _on_raw_guild_update (data : dict) : M unit :=
  guild ← fetch_guild (get "id" data);
  before ← copy guild;
  let before := or_MISSING before in
  after ← place_guild_data (VDict data);
  dispatch (GuildUpdate before (VObj after)).

Definition _on_raw_guild_delete (data : dict) : M unit :=
  guild_id ← lift (py_int (get "id" data));
  if truthy (get_default "unavailable" (VBool false) data) then
    guild ← get_guild (VInt guild_id);
    dispatch (GuildUnavailable guild_id (or_MISSING guild))
  else
    known ← gets (fun st => bool_decide (guild_id ∈ guild_ids st));
    (if (known : bool)
     then modify (fun st => set_guild_ids (guild_ids st ∖ {[guild_id]}) st)
     else mret tt);;
    guild ← get_guild (VInt guild_id);
    delete_guild guild_id;;
    dispatch (GuildLeft guild_id (or_MISSING guild)).

Definition _on_raw_guild_ban_add (data : dict) : M unit :=
  user ← place_user_data (get "user" data);
  dispatch (BanCreate (get "guild_id" data) (VObj user)).

Definition _on_raw_guild_ban_remove (data : dict) : M unit :=
  user ← place_user_data (get "user" data);
  dispatch (BanRemove (get "guild_id" data) (VObj user)).

Definition _on_raw_integration_create (data : dict) : M unit :=
  integration ← record_from_dict (VDict data);
  dispatch (IntegrationCreate (VObj integration)).

Definition _on_raw_integration_update (data : dict) : M unit :=
  integration ← record_from_dict (VDict data);
  dispatch (IntegrationUpdate (VObj integration)).

Definition _on_raw_integration_delete (data : dict) : M unit :=
  dispatch (IntegrationDelete (get "guild_id" data) (get "id" data)
                              (get "application_id" data)).

(** [if self.cache.emoji_cache:] is false for a disabled cache and for an
    enabled cache that holds nothing yet. *)
Definition emoji_cache_truthy (st : client) : bool :=
  match emoji_cache st with
  | Some m => negb (bool_decide (m = ∅))
  | None => false
  end.

Definition _on_raw_guild_emojis_update (data : dict) : M unit :=
  let guild_id := get "guild_id" data in
  let emojis := get "emojis" data in
  enabled ← gets emoji_cache_truthy;
  before ← (if (enabled : bool)
            then items ← lift (iterate emojis);
                 for_each (fun emoji =>
                   id ← lift (d ← as_payload emoji; getitem "id" d);
                   cached ← get_emoji id;
                   copy cached) items
            else mret []);
  items ← lift (iterate emojis);
  after ← for_each (fun emoji =>
             e ← place_emoji_data guild_id emoji; mret (VObj e)) items;
  dispatch (GuildEmojisUpdate guild_id before after).

Definition _on_raw_guild_stickers_update (data : dict) : M unit :=
  items ← lift (iterate (get_default "stickers" (VList []) data));
  stickers ← for_each (fun d => s ← record_from_dict d; mret (VObj s)) items;
  dispatch (GuildStickersUpdate (get "guild_id" data) stickers).

Definition _on_raw_webhook_update (data : dict) : M unit :=
  dispatch (WebhooksUpdate (get "guild_id" data) (get "channel_id" data)).

(** The raw update kinds of the module. *)
Inductive update_kind : Type :=
| GUILD_CREATE
| GUILD_UPDATE
| GUILD_DELETE
| GUILD_BAN_ADD
| GUILD_BAN_REMOVE
| INTEGRATION_CREATE
| INTEGRATION_UPDATE
| INTEGRATION_DELETE
| GUILD_EMOJIS_UPDATE
| GUILD_STICKERS_UPDATE
| WEBHOOK_UPDATE.

Definition processor (k : update_kind) : dict -> M unit :=
  match k with
  | GUILD_CREATE => _on_raw_guild_create
  | GUILD_UPDATE => _on_raw_guild_update
  | GUILD_DELETE => _on_raw_guild_delete
  | GUILD_BAN_ADD => _on_raw_guild_ban_add
  | GUILD_BAN_REMOVE => _on_raw_guild_ban_remove
  | INTEGRATION_CREATE => _on_raw_integration_create
  | INTEGRATION_UPDATE => _on_raw_integration_update
  | INTEGRATION_DELETE => _on_raw_integration_delete
  | GUILD_EMOJIS_UPDATE => _on_raw_guild_emojis_update
  | GUILD_STICKERS_UPDATE => _on_raw_guild_stickers_update
  | WEBHOOK_UPDATE => _on_raw_webhook_update
  end.

(** The sub-entity updates: bans, emoji, stickers, webhooks, integrations. *)
Definition sub_entity (k : update_kind) : bool :=
  match k with
  | GUILD_CREATE | GUILD_UPDATE | GUILD_DELETE => false
  | _ => true
  end.

End GuildEvents.

(** ** The relation accessors of a message ([message.py]) *)

Module Message.
Import Py Store.

(** The relation fields of [BaseMessage], after their converters. *)
Record BaseMessage : Type := {
  _channel_id : value;
  _thread_channel_id : value;
  _guild_id : value;
  _author_id : value
}.

(** [BaseMessage.guild] *)
Definition guild (self : BaseMessage) : M value :=
  get_guild (_guild_id self).

(** [BaseMessage.author] *)
Definition author (self : BaseMessage) : M value :=
  if truthy (_author_id self) then
    member ← (if truthy (_guild_id self)
              then get_member (_guild_id self) (_author_id self)
              else mret VNone);
    if truthy member then mret member else get_user (_author_id self)
  else mret VMissing.

Section Channel.

(** The number of [ChannelTypes.DM]; the enum is declared in
    [naff/models/discord/enums.py], which is not among the sources. *)
Variable DM : Z.

(** Modelled from the spec: [BaseChannel.from_dict_factory], whose class is
    not among the sources, builds a channel record from a payload; the
    record it returns is not put into the store. *)
Definition from_dict_factory (data : dict) : M nat := alloc data.

(** [BaseMessage.channel] *)
Definition channel (self : BaseMessage) : M value :=
  channel ← get_channel (_channel_id self);
  if negb (truthy (_guild_id self)) && negb (truthy channel) then
    c ← from_dict_factory [("id", _channel_id self); ("type", VEnum "ChannelTypes" DM)];
    a ← author self;
    (if truthy a then setattr c "recipients" (VList [a]) else mret tt);;
    mret (VObj c)
  else mret channel.

End Channel.

(** [BaseMessage.thread] *)
Definition thread (self : BaseMessage) : M value :=
  get_channel (_thread_channel_id self).

End Message.

(** ** Properties of states and computations *)

Module Props.
Import Py Store Guild GuildEvents.

(** A computation keeps a property of the state, whether it returns or
    raises. *)
Definition preserving (P : client -> Prop) {A} (m : M A) : Prop :=
  forall st, P st -> P (snd (m st)).

(** [st'] differs from [st] in the object store and the entity cache at
    most. *)
Definition store_only (st st' : client) : Prop :=
  st' = set_entities (entities st') (set_heap (heap st') st).

(** Every cached location is an object of the object store. *)
Definition allocated (st : client) : Prop :=
  map_Forall (fun _ l => (l < length (heap st))%nat) (entities st).

(** No object is cached under two keys. *)
Definition injective (st : client) : Prop :=
  map_Forall (fun k1 l1 =>
    map_Forall (fun k2 l2 => l1 = l2 -> k1 = k2) (entities st)) (entities st).

(** An object that holds fields [r] and that the cache does not know: a copy,
    or a record built for one event. *)
Definition unreferenced (p : nat) (r : dict) (st : client) : Prop :=
  heap st !! p = Some r /\ map_Forall (fun _ l => l ≠ p) (entities st).

(** The identifier in a key. *)
Definition key_id (k : key) : Z :=
  match k with
  | KGuild id => id
  | KChannel id => id
  | KUser id => id
  | KMember _ id => id
  | KRole _ id => id
  end.

(** The store holds a record under key [k], and the record's [id] is the
    key's identifier. *)
Definition stored (st : client) (k : key) : Prop :=
  exists l r, entities st !! k = Some l /\ heap st !! l = Some r /\
              dict_get "id" r = Some (VInt (key_id k)).

(** A well-formed store. *)
Definition wf (st : client) : Prop := allocated st /\ injective st.

(** A computation that leaves no trace. *)
Definition quiet {A} (m : M A) : Prop :=
  forall t, preserving (fun st => trace st = t) m.

(** A computation that, when it returns, has dispatched one event as its
    only step, and when it raises has left no trace. *)
Definition dispatches_once {A} (m : M A) : Prop :=
  forall st,
    match m st with
    | (Ok _, st') => exists e, trace st' = trace st ++ [Dispatch e]
    | (Raise _, st') => trace st' = trace st
    end.

(** What [get_guild] answers for an identifier in a state. *)
Definition cached_guild (st : client) (id : value) : value :=
  match to_snowflake id with
  | Ok n =>
      match entities st !! KGuild n with
      | Some l => VObj l
      | None => VNone
      end
  | Raise _ => VNone
  end.

(** The identifier of an embedded object. *)
Definition embedded_id (v : value) : result Z :=
  d ← as_payload v; payload_id d.

(** The objects embedded in a payload under a relation field. *)
Definition embedded (field : string) (data : dict) : result (list value) :=
  iterate (get_default field (VList []) data).

(** A list of identifiers as a payload value. *)
Definition id_list (ids : list Z) : value := VList (map VInt ids).

(** The normalized payload [process_dict] returns, given the identifier
    lists it has computed. *)
Definition normalized_payload (data : dict) (cids tids mids rids : value) : dict :=
  dict_set "role_ids" rids (dict_remove "roles"
    (dict_set "member_ids" mids (dict_remove "members"
      (dict_set "thread_ids" tids (dict_remove "threads"
        (dict_set "channel_ids" cids (dict_remove "channels" data))))))).

(** The states a client goes through: it starts with nothing cached, and
    every raw update runs its processor; application code may read a
    message's channel at any time. *)
Inductive reachable : client -> Prop :=
| reachable_fresh fetch emoji net :
    reachable (fresh_client fetch emoji net)
| reachable_update k data st :
    reachable st -> reachable (snd (processor k data st))
| reachable_channel DM self st :
    reachable st -> reachable (snd (Message.channel DM self st)).

End Props.

(** ** Sample payloads and clients *)

Module Samples.
Import Py Store Guild GuildEvents.

(** The payload of the spec's example. *)
Definition example_payload : dict :=
  [("id", VInt 42); ("owner_id", VInt 7);
   ("channels", VList [VDict [("id", VInt 100); ("type", VStr "text")]]);
   ("roles", VList [VDict [("id", VInt 200); ("name", VStr "admin")]])].

(** A client whose emoji cache holds the emoji 1 of guild 42. *)
Definition one_emoji_client : client :=
  snd (place_emoji_data (VStr "42") (VDict [("id", VStr "1"); ("name", VStr "a")])
         (fresh_client false true (fun _ => None))).

(** The create payload of guild 42, which says the guild is available. *)
Definition joined_payload : dict :=
  [("id", VStr "42"); ("name", VStr "Old"); ("unavailable", VBool false)].

(** A client that has processed the create of guild 42. *)
Definition joined_client : client :=
  snd (_on_raw_guild_create joined_payload
         (fresh_client false false (fun _ => None))).

End Samples.

(** ** Properties of runs and of sequences of updates *)

Module Behaviour.
Import Py Store Guild GuildEvents.

Definition is_dispatch (a : action) : bool :=
  match a with
  | Dispatch _ => true
  | _ => false
  end.

(** Steps among which no event is dispatched. *)
Definition no_dispatch (steps : list action) : Prop :=
  forallb (fun a => negb (is_dispatch a)) steps = true.

(** A computation that dispatches nothing: it may suspend or evict. *)
Definition undispatching {A} (m : M A) : Prop :=
  forall st, exists steps,
    no_dispatch steps /\ trace (snd (m st)) = trace st ++ steps.

(** A computation that dispatches one event as its last step when it
    returns, and none when it raises. *)
Definition dispatches_last {A} (m : M A) : Prop :=
  forall st, exists steps,
    no_dispatch steps /\
    match m st with
    | (Ok _, st') => exists e, trace st' = trace st ++ steps ++ [Dispatch e]
    | (Raise _, st') => trace st' = trace st ++ steps
    end.

(** Every key cached in [st] is cached in [st'] with the same object. *)
Definition keeps_keys (st st' : client) : Prop :=
  forall k l, entities st !! k = Some l -> entities st' !! k = Some l.

(** Every cached emoji is an object of the object store. *)
Definition emoji_allocated (st : client) : Prop :=
  match emoji_cache st with
  | Some m => map_Forall (fun _ l => (l < length (heap st))%nat) m
  | None => True
  end.

(** An object that holds fields [r] and that neither cache knows. *)
Definition detached (p : nat) (r : dict) (st : client) : Prop :=
  heap st !! p = Some r /\
  map_Forall (fun _ l => l ≠ p) (entities st) /\
  match emoji_cache st with
  | Some m => map_Forall (fun _ l => l ≠ p) m
  | None => True
  end.

(** [follows st st']: the client gets from [st] to [st'] by processing raw
    updates and reading channels of messages, as in [reachable]. *)
Inductive follows (st : client) : client -> Prop :=
| follows_refl : follows st st
| follows_update k data st' :
    follows st st' -> follows st (snd (processor k data st'))
| follows_channel DM self st' :
    follows st st' -> follows st (snd (Message.channel DM self st')).

(** The kinds of records [Guild.process_dict] places: channels (threads
    among them), members and roles. *)
Definition decomposed_kind (k : key) : Prop :=
  match k with
  | KChannel _ | KMember _ _ | KRole _ _ => True
  | KGuild _ | KUser _ => False
  end.

(** [st'] has the caches, the guild ids and the objects of [st]: at most
    new objects have been added to the object store. *)
Definition only_new_objects (st st' : client) : Prop :=
  entities st' = entities st /\ emoji_cache st' = emoji_cache st /\
  guild_ids st' = guild_ids st /\
  (length (heap st) <= length (heap st'))%nat /\
  forall p, (p < length (heap st))%nat -> heap st' !! p = heap st !! p.

(** The updates whose records are held by the event alone. *)
Definition event_only (k : update_kind) : bool :=
  match k with
  | INTEGRATION_CREATE | INTEGRATION_UPDATE | INTEGRATION_DELETE
  | GUILD_STICKERS_UPDATE | WEBHOOK_UPDATE => true
  | _ => false
  end.

End Behaviour.

(** ** Auto-moderation: the factories and the round trip *)

Module AutoModFacts.
Import Py AutoMod.

Section Facts.
Context {E : EnumDecls}.

Lemma enum_call_member cls v w :
  enum_call cls v = Ok w -> exists n, w = VEnum cls n.
Proof.
  unfold enum_call. intros H.
  assert (Hl : match enum_value cls v with
               | Some n => Ok (VEnum cls n)
               | None => Raise ValueError
               end = Ok w -> exists n, w = VEnum cls n).
  { destruct (enum_value cls v) as [n|]; [|discriminate].
    intros [= <-]. by exists n. }
  destruct v; auto.
  destruct (String.eqb cls0 cls) eqn:Hc; auto.
  apply String.eqb_eq in Hc. subst. injection H as <-. eauto.
Qed.

Lemma enum_call_idem cls n : enum_call cls (VEnum cls n) = Ok (VEnum cls n).
Proof. unfold enum_call. by rewrite String.eqb_refl. Qed.

Lemma map_result_enum_idem cls l l' :
  map_result (enum_call cls) l = Ok l' -> map_result (enum_call cls) l' = Ok l'.
Proof.
  revert l'. induction l as [|v l IH]; intros l'; simpl.
  - by intros [= <-].
  - destruct (enum_call cls v) as [w|] eqn:Hv; [|discriminate].
    destruct (map_result (enum_call cls) l) as [ws|] eqn:Hl; [|discriminate].
    intros [= <-]. simpl.
    destruct (enum_call_member _ _ _ Hv) as [n ->].
    rewrite enum_call_idem. by rewrite (IH ws).
Qed.

Lemma list_converter_idem cls v w :
  list_converter (enum_call cls) v = Ok w ->
  exists l, w = VList l /\ map_result (enum_call cls) l = Ok l.
Proof.
  unfold list_converter. intros H.
  assert (Hone : (fun x => VList [x]) <$> enum_call cls v = Ok w ->
                 exists l, w = VList l /\ map_result (enum_call cls) l = Ok l).
  { destruct (enum_call cls v) as [x|] eqn:Hv; [|discriminate].
    intros [= <-]. exists [x]. split; [done|]. simpl.
    destruct (enum_call_member _ _ _ Hv) as [n ->]. by rewrite enum_call_idem. }
  destruct v as [| | | |l| | | |]; try (destruct (Hone H) as (l' & -> & ?); by exists l').
  destruct (map_result (enum_call cls) l) as [l'|] eqn:Hl; [|discriminate].
  injection H as <-. exists l'. split; [done|].
  by rewrite (map_result_enum_idem _ _ _ Hl).
Qed.

Lemma keyword_converter_list v w :
  _keyword_converter v = Ok w -> exists l, w = VList l.
Proof. destruct v; intros [= <-]; eauto. Qed.

#[local] Arguments enum_call : simpl never.
#[local] Arguments AutoModTriggerType : simpl never.
#[local] Arguments AutoModAction : simpl never.
#[local] Arguments AutoModLanuguageType : simpl never.

(** Case analysis on the calls an unfolded constructor makes: the keywords
    it looks up and the converters it runs. *)
Ltac break_call_in H :=
  match type of H with
  | context [dict_get ?k ?kw] => destruct (dict_get k kw) eqn:?
  | context [AutoModTriggerType ?v] => destruct (AutoModTriggerType v) eqn:?
  | context [_keyword_converter ?v] => destruct (_keyword_converter v) eqn:?
  | context [list_converter ?f ?v] => destruct (list_converter f v) eqn:?
  end.

Lemma factory_known_trigger cls c t m :
  mapping_get TRIGGER_MAPPING t = Ok (Some c) ->
  BaseTrigger_from_dict_factory cls [("trigger_metadata", m); ("trigger_type", t)]
  = Outcome [] (from_dict c [("type", t); ("trigger_metadata", m)]).
Proof.
  intros H. unfold BaseTrigger_from_dict_factory.
  change (get "trigger_type" [("trigger_metadata", m); ("trigger_type", t)]) with t.
  rewrite H. reflexivity.
Qed.

(** C10, as amended.  A trigger object whose type tag is the one
    [TRIGGER_MAPPING] maps to the object's own class round-trips: [as_dict]
    gives the dict with the fields other than the type under
    ["trigger_metadata"] and the type under ["trigger_type"], and the
    factory makes of that dict, without logging, a trigger of the same class
    with the same field values. *)
Theorem trigger_roundtrip (c : class) (kwargs : dict) (o : instance) :
  is_trigger c = true ->
  construct c kwargs = Ok o ->
  mapping_get TRIGGER_MAPPING (get "type" (attrs_of o)) = Ok (Some c) ->
  let meta := List.filter (fun kv => negb (String.eqb (fst kv) "type")) (attrs_of o) in
  let d := [("trigger_metadata", VDict meta); ("trigger_type", get "type" (attrs_of o))] in
  as_dict o = Ok d /\
  forall cls, BaseTrigger_from_dict_factory cls d = Outcome [] (Ok o).
Proof.
  intros Htrig Hcons Hmap meta d.
  assert (Hfac : from_dict c [("type", get "type" (attrs_of o)); ("trigger_metadata", VDict meta)] = Ok o
                 -> forall cls, BaseTrigger_from_dict_factory cls d = Outcome [] (Ok o)).
  { intros Hfd cls. subst d. rewrite (factory_known_trigger cls c); [|exact Hmap]. by rewrite Hfd. }
  clear Hmap.
  unfold construct in Hcons.
  destruct (existsb _ kwargs); [discriminate|].
  destruct c; try discriminate; simpl in Hcons; unfold init_value in Hcons; simpl in Hcons;
    repeat (break_call_in Hcons; simpl in Hcons; try discriminate);
    injection Hcons as <-;
    repeat match goal with
           | H : AutoModTriggerType _ = Ok _ |- _ =>
               destruct (enum_call_member _ _ _ H) as [? ->]; clear H
           | H : _keyword_converter _ = Ok _ |- _ =>
               destruct (keyword_converter_list _ _ H) as [? ->]; clear H
           | H : list_converter _ _ = Ok _ |- _ =>
               destruct (list_converter_idem _ _ _ H) as (? & -> & ?); clear H
           end.
  all: split; [reflexivity|]; apply Hfac; subst meta; cbn.
  all: unfold from_dict; cbn; unfold construct; cbn.
  all: unfold AutoModTriggerType; rewrite ?enum_call_idem; cbn.
  all: try reflexivity.
  all: unfold AutoModLanuguageType;
    match goal with H : map_result _ _ = Ok _ |- _ => rewrite H end; reflexivity.
Qed.


End Facts.



(** A keyword trigger built with its default type goes through [as_dict] and
    the factory unchanged. *)
Lemma trigger_roundtrip_witness :
  let o := Instance KeywordTrigger
             [("type", VEnum "AutoModTriggerType" 1);
              ("keyword_filter", VList [VStr "spam"])] in
  let d := [("trigger_metadata", VDict [("keyword_filter", VList [VStr "spam"])]);
            ("trigger_type", VEnum "AutoModTriggerType" 1)] in
  @construct closed_enums KeywordTrigger [("keyword_filter", VStr "spam")] = Ok o /\
  as_dict o = Ok d /\
  @BaseTrigger_from_dict_factory closed_enums BaseTrigger d = Outcome [] (Ok o).
Proof.
  simpl. split; [reflexivity|].
  destruct (@trigger_roundtrip closed_enums KeywordTrigger
              [("keyword_filter", VStr "spam")]
              (Instance KeywordTrigger
                 [("type", VEnum "AutoModTriggerType" 1);
                  ("keyword_filter", VList [VStr "spam"])]))
    as [H1 H2]; [reflexivity | reflexivity | reflexivity |].
  split; [exact H1 | exact (H2 BaseTrigger)].
Defined.

(** C10 as stated fails: a mention-spam trigger, whose class declares no
    default type, built with the keyword type comes back from [as_dict] and
    the factory as a keyword trigger without its mention limit. *)
Lemma trigger_roundtrip_changes_class :
  let o := Instance MentionSpamTrigger
             [("type", VEnum "AutoModTriggerType" 1);
              ("mention_total_limit", VInt 5)] in
  let d := [("trigger_metadata", VDict [("mention_total_limit", VInt 5)]);
            ("trigger_type", VEnum "AutoModTriggerType" 1)] in
  @construct closed_enums MentionSpamTrigger
    [("type", VEnum "AutoModTriggerType" 1); ("mention_total_limit", VInt 5)] = Ok o /\
  as_dict o = Ok d /\
  @BaseTrigger_from_dict_factory closed_enums BaseTrigger d =
  Outcome [] (Ok (Instance KeywordTrigger
                    [("type", VEnum "AutoModTriggerType" 1);
                     ("keyword_filter", VList [])])).
Proof. repeat split. Qed.

End AutoModFacts.

(** ** Dicts *)

Module DictFacts.
Import Py.

Lemma dict_get_app k d1 d2 :
  dict_get k (d1 ++ d2) =
  match dict_get k d1 with Some v => Some v | None => dict_get k d2 end.
Proof.
  induction d1 as [|[k' v'] d1 IH]; simpl; [done|].
  by destruct (String.eqb k k').
Qed.

Lemma dict_get_None k d : dict_get k d = None <-> forall v, ~ In (k, v) d.
Proof.
  induction d as [|[k' v'] d IH]; simpl.
  - split; [by intros _ v []|done].
  - destruct (String.eqb k k') eqn:Hk.
    + apply String.eqb_eq in Hk as ->. split; [done|].
      intros H. destruct (H v'). by left.
    + apply String.eqb_neq in Hk. rewrite IH. split.
      * intros H v [[= <- <-]|Hin]; [done|]. by apply (H v).
      * intros H v Hin. apply (H v). by right.
Qed.

Lemma dict_get_rev_None k d : dict_get k d = None -> dict_get k (rev d) = None.
Proof.
  rewrite !dict_get_None. intros H v Hin. apply (H v). by apply in_rev.
Qed.

Lemma dict_get_remove_eq k d : dict_get k (dict_remove k d) = None.
Proof.
  induction d as [|[k' v'] d IH]; simpl; [done|].
  destruct (String.eqb k k') eqn:Hk; [done|]. simpl. by rewrite Hk.
Qed.

Lemma dict_get_remove_ne k k' d :
  k ≠ k' -> dict_get k (dict_remove k' d) = dict_get k d.
Proof.
  intros Hne. induction d as [|[k1 v1] d IH]; simpl; [done|].
  destruct (String.eqb k' k1) eqn:H1.
  - apply String.eqb_eq in H1 as <-.
    destruct (String.eqb k k') eqn:H2; [by apply String.eqb_eq in H2|done].
  - simpl. by rewrite IH.
Qed.

Lemma dict_get_set_eq k v d : dict_get k (dict_set k v d) = Some v.
Proof.
  induction d as [|[k' v'] d IH]; simpl.
  - by rewrite String.eqb_refl.
  - destruct (String.eqb k k') eqn:Hk; simpl.
    + by rewrite String.eqb_refl.
    + by rewrite Hk.
Qed.

Lemma dict_get_set_ne k k' v d :
  k ≠ k' -> dict_get k (dict_set k' v d) = dict_get k d.
Proof.
  intros Hne. induction d as [|[k1 v1] d IH]; simpl.
  - destruct (String.eqb k k') eqn:H; [by apply String.eqb_eq in H|done].
  - destruct (String.eqb k' k1) eqn:H1; simpl.
    + apply String.eqb_eq in H1 as <-.
      destruct (String.eqb k k') eqn:H2; [by apply String.eqb_eq in H2|].
      by apply dict_get_remove_ne.
    + by rewrite IH.
Qed.

Lemma dict_get_rev_set k v d : dict_get k (rev (dict_set k v d)) = Some v.
Proof.
  induction d as [|[k' v'] d IH]; simpl.
  - by rewrite String.eqb_refl.
  - destruct (String.eqb k k') eqn:Hk; simpl; rewrite dict_get_app.
    + rewrite (dict_get_rev_None _ _ (dict_get_remove_eq k d)). simpl.
      by rewrite String.eqb_refl.
    + by rewrite IH.
Qed.

(** In [d.update(new)] the last binding of a key in [new] wins. *)
Lemma dict_get_update k new : forall old,
  dict_get k (dict_update old new) =
  match dict_get k (rev new) with Some v => Some v | None => dict_get k old end.
Proof.
  unfold dict_update. induction new as [|[k' v'] new IH]; intros old; simpl; [done|].
  rewrite IH, dict_get_app. destruct (dict_get k (rev new)); [done|]. simpl.
  destruct (String.eqb k k') eqn:Hk.
  - apply String.eqb_eq in Hk as ->. apply dict_get_set_eq.
  - apply String.eqb_neq in Hk. by apply dict_get_set_ne.
Qed.

Lemma dict_get_update_set k v d old :
  dict_get k (dict_update old (dict_set k v d)) = Some v.
Proof. by rewrite dict_get_update, dict_get_rev_set. Qed.

End DictFacts.

(** ** Reasoning about computations over the client *)

Module StoreFacts.
Import Py Store Props.

Lemma run_bind {A B} (m : M A) (f : A -> M B) (st : client) :
  (m ≫= f) st =
  match m st with
  | (Ok a, st') => f a st'
  | (Raise e, st') => (Raise e, st')
  end.
Proof. reflexivity. Qed.

Lemma run_bind_ok {A B} (m : M A) (f : A -> M B) st a st' :
  m st = (Ok a, st') -> (m ≫= f) st = f a st'.
Proof. intros H. by rewrite run_bind, H. Qed.

Lemma run_bind_raise {A B} (m : M A) (f : A -> M B) st e st' :
  m st = (Raise e, st') -> (m ≫= f) st = (Raise e, st').
Proof. intros H. by rewrite run_bind, H. Qed.

Section Preserving.
Context (P : client -> Prop).

Lemma preserving_ret {A} (a : A) : preserving P (mret a).
Proof. by intros st. Qed.

Lemma preserving_lift {A} (r : result A) : preserving P (lift r).
Proof. by intros st. Qed.

Lemma preserving_gets {A} (f : client -> A) : preserving P (gets f).
Proof. by intros st. Qed.

Lemma preserving_bind {A B} (m : M A) (f : A -> M B) :
  preserving P m -> (forall a, preserving P (f a)) -> preserving P (m ≫= f).
Proof.
  intros Hm Hf st HP. rewrite run_bind.
  specialize (Hm st HP). destruct (m st) as [[a|e] st']; simpl in *.
  - by apply Hf.
  - done.
Qed.

Lemma preserving_for_each {A B} (f : A -> M B) (l : list A) :
  (forall a, preserving P (f a)) -> preserving P (for_each f l).
Proof.
  intros Hf. induction l as [|x l IH]; simpl.
  - apply preserving_ret.
  - apply preserving_bind; [apply Hf|]. intros y.
    apply preserving_bind; [apply IH|]. intros ys. apply preserving_ret.
Qed.

Lemma preserving_getattr l name : preserving P (getattr l name).
Proof. intros st HP. unfold getattr. by destruct (dict_get _ _). Qed.

Lemma preserving_get_entity kind id : preserving P (get_entity kind id).
Proof.
  intros st HP. unfold get_entity.
  destruct (to_snowflake id); [|done]. by destruct (entities st !! _).
Qed.

Lemma preserving_get_member g id : preserving P (get_member g id).
Proof.
  intros st HP. unfold get_member.
  destruct (to_snowflake g); [|done]. by apply preserving_get_entity.
Qed.

Lemma preserving_get_emoji id : preserving P (get_emoji id).
Proof.
  intros st HP. unfold get_emoji.
  destruct (to_snowflake id); [|done].
  destruct (emoji_cache st) as [m|]; [|done]. by destruct (m !! _).
Qed.

(** What follows from the store's [put] keeping the property. *)
Hypothesis P_put : forall k fields, preserving P (put k fields).

Lemma preserving_place kind data : preserving P (place kind data).
Proof.
  unfold place. apply preserving_bind; [apply preserving_lift|]. intros d.
  apply preserving_bind; [apply preserving_lift|]. intros id. apply P_put.
Qed.

Lemma preserving_place_member_data g data : preserving P (place_member_data g data).
Proof.
  unfold place_member_data. apply preserving_bind; [apply preserving_lift|].
  intros gid. apply preserving_place.
Qed.

Lemma preserving_place_roles g items roles : preserving P (place_roles g items roles).
Proof.
  revert roles. induction items as [|x items IH]; intros roles; simpl.
  - apply preserving_ret.
  - apply preserving_bind; [apply preserving_lift|]. intros d.
    apply preserving_bind; [apply preserving_lift|]. intros id.
    apply preserving_bind; [apply P_put|]. intros l. apply IH.
Qed.

Lemma preserving_place_role_data g data : preserving P (place_role_data g data).
Proof.
  unfold place_role_data. apply preserving_bind; [apply preserving_lift|].
  intros gid. apply preserving_bind; [apply preserving_lift|].
  intros items. apply preserving_place_roles.
Qed.

Lemma preserving_place_then_id {A} (place_it : A -> M nat) :
  (forall a, preserving P (place_it a)) ->
  forall a, preserving P (c ← place_it a; getattr c "id").
Proof.
  intros H a. apply preserving_bind; [apply H|]. intros c. apply preserving_getattr.
Qed.

Lemma preserving_process_dict data : preserving P (Guild.process_dict data).
Proof.
  unfold Guild.process_dict, pop_default.
  apply preserving_bind; [apply preserving_lift|]. intros guild_id.
  apply preserving_bind; [apply preserving_lift|]. intros cs.
  apply preserving_bind;
    [apply preserving_for_each, preserving_place_then_id, preserving_place|].
  intros cids.
  apply preserving_bind; [apply preserving_lift|]. intros ts.
  apply preserving_bind;
    [apply preserving_for_each, preserving_place_then_id, preserving_place|].
  intros tids.
  apply preserving_bind; [apply preserving_lift|]. intros ms.
  apply preserving_bind;
    [apply preserving_for_each, preserving_place_then_id, preserving_place_member_data|].
  intros mids.
  apply preserving_bind; [apply preserving_place_role_data|]. intros roles.
  apply preserving_ret.
Qed.

Lemma preserving_place_guild_data data : preserving P (Guild.place_guild_data data).
Proof.
  unfold Guild.place_guild_data.
  apply preserving_bind; [apply preserving_lift|]. intros d.
  apply preserving_bind; [apply preserving_process_dict|]. intros normalized.
  apply preserving_bind; [apply preserving_lift|]. intros id. apply P_put.
Qed.

End Preserving.

(** *** What the store's writes leave alone *)

Lemma store_only_refl st : store_only st st.
Proof. by destruct st. Qed.

Lemma store_only_set_heap st st' h : store_only st st' -> store_only st (set_heap h st').
Proof. unfold store_only. intros ->. by destruct st. Qed.

Lemma store_only_set_entities st st' m :
  store_only st st' -> store_only st (set_entities m st').
Proof. unfold store_only. intros ->. by destruct st. Qed.

Lemma store_only_put st0 k fields : preserving (store_only st0) (put k fields).
Proof.
  intros st H. unfold put. destruct (entities st !! k); simpl.
  - by apply store_only_set_heap.
  - by apply store_only_set_entities, store_only_set_heap.
Qed.

Lemma store_only_trace st st' : store_only st st' -> trace st' = trace st.
Proof. by intros ->. Qed.

Lemma store_only_env st st' :
  store_only st st' ->
  fetch_members st' = fetch_members st /\ chunked st' = chunked st /\
  guild_ids st' = guild_ids st /\ guild_event st' = guild_event st /\
  emoji_cache st' = emoji_cache st /\ origin st' = origin st.
Proof. by intros ->. Qed.

Lemma place_guild_data_store_only data st :
  store_only st (snd (Guild.place_guild_data data st)).
Proof.
  apply (preserving_place_guild_data (store_only st)).
  - intros k f. apply store_only_put.
  - apply store_only_refl.
Qed.

(** *** Invariants of the store *)

Lemma allocated_lookup st k l :
  allocated st -> entities st !! k = Some l -> (l < length (heap st))%nat.
Proof. intros H Hk. by apply (map_Forall_lookup_1 _ _ _ _ H Hk). Qed.

Lemma injective_lookup st k1 k2 l :
  injective st -> entities st !! k1 = Some l -> entities st !! k2 = Some l -> k1 = k2.
Proof.
  intros H H1 H2.
  pose proof (map_Forall_lookup_1 _ _ _ _ H H1) as H'. simpl in H'.
  by apply (map_Forall_lookup_1 _ _ _ _ H' H2).
Qed.

Lemma allocated_put k fields : preserving allocated (put k fields).
Proof.
  intros st H. unfold put. destruct (entities st !! k) as [l|] eqn:Hk; simpl.
  - unfold allocated in *. simpl. by rewrite length_alter.
  - unfold allocated in *. simpl. rewrite length_app. simpl.
    apply map_Forall_insert_2; [lia|].
    eapply map_Forall_impl; [exact H|]. simpl. intros; lia.
Qed.

Lemma injective_put k fields :
  preserving (fun st => allocated st /\ injective st) (put k fields).
Proof.
  intros st [Ha Hi]. split; [by apply allocated_put|].
  unfold put. destruct (entities st !! k) as [l|] eqn:Hk; simpl; [done|].
  unfold injective. simpl.
  apply map_Forall_lookup. intros k1 l1 H1.
  apply map_Forall_lookup. intros k2 l2 H2 <-.
  apply lookup_insert_Some in H1 as [[<- <-]|[Hne1 H1]];
    apply lookup_insert_Some in H2 as [[<- Heq]|[Hne2 H2]]; try done.
  - pose proof (allocated_lookup _ _ _ Ha H2). lia.
  - pose proof (allocated_lookup _ _ _ Ha H1). lia.
  - by apply (injective_lookup st k1 k2 l1).
Qed.

Lemma unreferenced_put p r k fields : preserving (unreferenced p r) (put k fields).
Proof.
  intros st [Hp Hne]. unfold put. destruct (entities st !! k) as [l|] eqn:Hk; simpl.
  - split; [|done]. simpl.
    rewrite list_lookup_alter_ne; [done|].
    by apply (map_Forall_lookup_1 _ _ _ _ Hne Hk).
  - pose proof (lookup_lt_Some _ _ _ Hp) as Hlt. split; simpl.
    + by rewrite lookup_app_l.
    + apply map_Forall_insert_2; [lia|done].
Qed.

Lemma put_cached k fields st :
  exists l, fst (put k fields st) = Ok l /\
            entities (snd (put k fields st)) !! k = Some l.
Proof.
  unfold put. destruct (entities st !! k) as [l|] eqn:Hk; simpl.
  - by exists l.
  - eexists. split; [done|]. by rewrite lookup_insert_eq.
Qed.

Lemma place_guild_data_cached data st l st' :
  Guild.place_guild_data data st = (Ok l, st') ->
  exists k, entities st' !! k = Some l.
Proof.
  unfold Guild.place_guild_data. rewrite run_bind. unfold lift at 1.
  destruct (as_payload data) as [d|]; [|discriminate].
  rewrite run_bind. destruct (Guild.process_dict d st) as [[n|] st1]; [|discriminate].
  rewrite run_bind. unfold lift at 1.
  destruct (payload_id n) as [id|]; [|discriminate].
  destruct (put_cached (KGuild id) (dict_set "id" (VInt id) n) st1) as (l' & H1 & H2).
  destruct (put _ _ st1) as [r st2]. simpl in *. subst r.
  intros [= <- <-]. by exists (KGuild id).
Qed.

(** *** Records under their identifier *)

Lemma wf_fresh_client fetch emoji net : wf (fresh_client fetch emoji net).
Proof. split; apply map_Forall_empty. Qed.

(** [put] of a payload at the key of its identifier. *)
Lemma put_stored k d st :
  wf st ->
  exists l st',
    put k (dict_set "id" (VInt (key_id k)) d) st = (Ok l, st') /\
    wf st' /\
    entities st' !! k = Some l /\
    stored st' k /\
    (forall k', stored st k' -> stored st' k') /\
    getattr l "id" st' = (Ok (VInt (key_id k)), st').
Proof.
  intros Hwf.
  pose proof (injective_put k (dict_set "id" (VInt (key_id k)) d) st Hwf) as Hwf'.
  destruct Hwf as [Ha Hi].
  unfold put in *. destruct (entities st !! k) as [l|] eqn:Hk; simpl in *.
  - pose proof (allocated_lookup _ _ _ Ha Hk) as Hlt.
    destruct (lookup_lt_is_Some_2 _ _ Hlt) as [old Hold].
    assert (Hnew : alter (fun old => dict_update old (dict_set "id" (VInt (key_id k)) d))
                     l (heap st) !! l
                   = Some (dict_update old (dict_set "id" (VInt (key_id k)) d))).
    { by rewrite list_lookup_alter_eq, Hold. }
    eexists _, _. split; [reflexivity|]. split; [done|]. split; [done|].
    split; [|split].
    + exists l, (dict_update old (dict_set "id" (VInt (key_id k)) d)).
      split; [done|]. split; [done|]. apply DictFacts.dict_get_update_set.
    + intros k' (l' & r & Hk' & Hr & Hid).
      destruct (decide (l' = l)) as [->|Hne].
      * rewrite (injective_lookup st k' k l Hi Hk' Hk).
        exists l, (dict_update old (dict_set "id" (VInt (key_id k)) d)).
        split; [done|]. split; [done|]. apply DictFacts.dict_get_update_set.
      * exists l', r. split; [done|]. split; [|done]. simpl.
        by rewrite list_lookup_alter_ne.
    + unfold getattr, fields_of, set_heap. cbn [heap].
      rewrite list_lookup_alter_eq, Hold. simpl.
      by rewrite DictFacts.dict_get_update_set.
  - assert (Hnew : (heap st ++ [dict_set "id" (VInt (key_id k)) d]) !! length (heap st)
                   = Some (dict_set "id" (VInt (key_id k)) d)).
    { by rewrite list_lookup_middle. }
    eexists _, _. split; [reflexivity|]. split; [done|]. simpl.
    split; [by rewrite lookup_insert_eq|]. split; [|split].
    + eexists _, _. simpl. split; [by rewrite lookup_insert_eq|].
      split; [exact Hnew|]. apply DictFacts.dict_get_set_eq.
    + intros k' (l' & r & Hk' & Hr & Hid). exists l', r. simpl.
      split; [|split; [|done]].
      * rewrite lookup_insert_ne; [done|]. intros <-. congruence.
      * rewrite lookup_app_l; [done|]. by eapply lookup_lt_Some.
    + unfold getattr, fields_of, set_heap, set_entities. cbn [heap].
      rewrite list_lookup_middle; [|done]. simpl.
      by rewrite DictFacts.dict_get_set_eq.
Qed.

Lemma for_each_ext {A B} (f g : A -> M B) l st :
  (forall a st, f a st = g a st) -> for_each f l st = for_each g l st.
Proof.
  intros H. revert st. induction l as [|x l IH]; intros st; simpl; [done|].
  rewrite !run_bind, H. destruct (g x st) as [[y|e] st1]; [|done].
  rewrite !run_bind, IH. done.
Qed.

End StoreFacts.

(** ** Guild payload decomposition *)

Module GuildFacts.
Import Py Store Guild Props Samples StoreFacts DictFacts.

Lemma place_then_id kind x i st :
  (forall n, key_id (kind n) = n) ->
  wf st -> embedded_id x = Ok i ->
  exists st',
    (c ← place kind x; getattr c "id") st = (Ok (VInt i), st') /\
    wf st' /\ stored st' (kind i) /\ (forall k, stored st k -> stored st' k).
Proof.
  intros Hkind Hwf Hx. unfold embedded_id in Hx.
  destruct (as_payload x) as [d|] eqn:Hd; [|discriminate]. simpl in Hx.
  destruct (put_stored (kind i) d st Hwf) as (l & st' & Hput & Hwf' & _ & Hs & Hmono & Hget).
  rewrite Hkind in Hput, Hget.
  exists st'. split; [|done].
  rewrite run_bind. unfold place. rewrite run_bind. unfold lift at 1. rewrite Hd.
  rewrite run_bind. unfold lift at 1. rewrite Hx. by rewrite Hput.
Qed.

Lemma place_ids kind items : forall ids st,
  (forall n, key_id (kind n) = n) ->
  wf st -> map_result embedded_id items = Ok ids ->
  exists st',
    for_each (fun x => c ← place kind x; getattr c "id") items st
    = (Ok (map VInt ids), st') /\
    wf st' /\ (forall i, In i ids -> stored st' (kind i)) /\
    (forall k, stored st k -> stored st' k).
Proof.
  induction items as [|x items IH]; intros ids st Hkind Hwf Hids; simpl in Hids.
  - injection Hids as <-. exists st.
    split; [done|]. split; [done|]. split; [by intros i []|done].
  - destruct (embedded_id x) as [i|] eqn:Hx; [|discriminate].
    destruct (map_result embedded_id items) as [ids'|] eqn:His; [|discriminate].
    injection Hids as <-.
    destruct (place_then_id kind x i st Hkind Hwf Hx) as (st1 & Hrun1 & Hwf1 & Hs1 & Hm1).
    destruct (IH ids' st1 Hkind Hwf1 eq_refl) as (st2 & Hrun2 & Hwf2 & Hs2 & Hm2).
    exists st2. split; [|split; [done|split]].
    + cbn [for_each]. rewrite run_bind, Hrun1, run_bind, Hrun2. done.
    + intros j [<-|Hj]; [by apply Hm2, Hs1|by apply Hs2].
    + intros k Hk. by apply Hm2, Hm1.
Qed.

Lemma roles_set_fresh i l roles :
  ~ In i (map fst roles) -> map fst (roles_set i l roles) = map fst roles ++ [i].
Proof.
  induction roles as [|[k' l'] roles IH]; simpl; [done|]. intros Hn.
  destruct (Z.eqb i k') eqn:Hk.
  - apply Z.eqb_eq in Hk. destruct Hn. by left.
  - simpl. rewrite IH; [done|]. intros Hin. apply Hn. by right.
Qed.

Lemma place_roles_spec g items : forall ids roles st,
  wf st -> map_result embedded_id items = Ok ids ->
  NoDup (map fst roles ++ ids) ->
  exists roles' st',
    place_roles g items roles st = (Ok roles', st') /\
    map fst roles' = map fst roles ++ ids /\
    wf st' /\ (forall i, In i ids -> stored st' (KRole g i)) /\
    (forall k, stored st k -> stored st' k).
Proof.
  induction items as [|x items IH]; intros ids roles st Hwf Hids Hnd; simpl in Hids.
  - injection Hids as <-. exists roles, st. rewrite app_nil_r.
    split; [done|]. split; [done|]. split; [done|]. split; [by intros i []|done].
  - destruct (embedded_id x) as [i|] eqn:Hx; [|discriminate].
    destruct (map_result embedded_id items) as [ids'|] eqn:His; [|discriminate].
    injection Hids as <-.
    unfold embedded_id in Hx.
    destruct (as_payload x) as [d|] eqn:Hd; [|discriminate]. simpl in Hx.
    destruct (put_stored (KRole g i) d st Hwf)
      as (l & st1 & Hput & Hwf1 & _ & Hs1 & Hm1 & _).
    simpl in Hput.
    assert (Hfresh : ~ In i (map fst roles)).
    { intros Hin. apply NoDup_app in Hnd as (_ & Hdis & _).
      apply (Hdis i); [by apply list_elem_of_In|]. apply list_elem_of_In. by left. }
    destruct (IH ids' (roles_set i l roles) st1 Hwf1 eq_refl)
      as (roles' & st2 & Hrun2 & Hkeys & Hwf2 & Hs2 & Hm2).
    { rewrite roles_set_fresh; [|done]. by rewrite <- app_assoc. }
    exists roles', st2. split; [|split; [|split; [done|split]]].
    + cbn [place_roles]. rewrite run_bind. unfold lift at 1. rewrite Hd.
      rewrite run_bind. unfold lift at 1. rewrite Hx.
      by rewrite run_bind, Hput.
    + rewrite Hkeys, roles_set_fresh; [|done]. by rewrite <- app_assoc.
    + intros j [<-|Hj]; [by apply Hm2, Hs1|by apply Hs2].
    + intros k Hk. by apply Hm2, Hm1.
Qed.

Lemma get_default_set_remove k k1 k2 v dflt d :
  k ≠ k1 -> k ≠ k2 ->
  get_default k dflt (dict_set k1 v (dict_remove k2 d)) = get_default k dflt d.
Proof.
  intros H1 H2. unfold get_default.
  by rewrite dict_get_set_ne, dict_get_remove_ne.
Qed.

Lemma normalized_payload_lookup data c t m r :
  let n := normalized_payload data c t m r in
  dict_get "channel_ids" n = Some c /\
  dict_get "thread_ids" n = Some t /\
  dict_get "member_ids" n = Some m /\
  dict_get "role_ids" n = Some r /\
  (forall field, In field ["channels"; "threads"; "members"; "roles"] ->
                 dict_get field n = None) /\
  (forall field,
     ~ In field ["channels"; "threads"; "members"; "roles";
                 "channel_ids"; "thread_ids"; "member_ids"; "role_ids"] ->
     dict_get field n = dict_get field data).
Proof.
  simpl. unfold normalized_payload.
  repeat split.
  - by rewrite !dict_get_set_ne, !dict_get_remove_ne, ?dict_get_set_ne,
      ?dict_get_remove_ne, ?dict_get_set_ne, ?dict_get_remove_ne, ?dict_get_set_eq.
  - by rewrite !dict_get_set_ne, !dict_get_remove_ne, ?dict_get_set_ne,
      ?dict_get_remove_ne, ?dict_get_set_eq.
  - by rewrite !dict_get_set_ne, !dict_get_remove_ne, ?dict_get_set_eq.
  - by rewrite dict_get_set_eq.
  - intros field Hin. simpl in Hin.
    destruct Hin as [<-|[<-|[<-|[<-|[]]]]].
    + by rewrite !dict_get_set_ne, !dict_get_remove_ne, ?dict_get_set_ne,
        ?dict_get_remove_ne, ?dict_get_set_ne, ?dict_get_remove_ne,
        ?dict_get_set_ne, ?dict_get_remove_eq.
    + by rewrite !dict_get_set_ne, !dict_get_remove_ne, ?dict_get_set_ne,
        ?dict_get_remove_ne, ?dict_get_set_ne, ?dict_get_remove_eq.
    + by rewrite !dict_get_set_ne, !dict_get_remove_ne, ?dict_get_set_ne,
        ?dict_get_remove_eq.
    + by rewrite !dict_get_set_ne, ?dict_get_remove_eq.
  - intros field Hn. simpl in Hn.
    rewrite !dict_get_set_ne, !dict_get_remove_ne, ?dict_get_set_ne,
      ?dict_get_remove_ne, ?dict_get_set_ne, ?dict_get_remove_ne,
      ?dict_get_set_ne, ?dict_get_remove_ne; try done; intros ->; tauto.
Qed.

Lemma place_member_ids g_raw g items st :
  to_snowflake g_raw = Ok g ->
  for_each (fun x => m ← place_member_data g_raw x; getattr m "id") items st =
  for_each (fun x => m ← place (KMember g) x; getattr m "id") items st.
Proof.
  intros Hg. apply for_each_ext. intros x st'.
  rewrite !run_bind. unfold place_member_data.
  rewrite run_bind. unfold lift at 1. by rewrite Hg.
Qed.




(** The example of the spec, run: the channel record, the role record and
    the guild record that [place_guild_data] makes of the normalized
    payload. *)
Lemma example_payload_records :
  let st' := snd (place_guild_data (VDict example_payload)
                    (fresh_client false false (fun _ => None))) in
  heap st' =
  [[("id", VInt 100); ("type", VStr "text")];
   [("id", VInt 200); ("name", VStr "admin")];
   [("id", VInt 42); ("owner_id", VInt 7); ("channel_ids", VList [VInt 100]);
    ("thread_ids", VList []); ("member_ids", VList []);
    ("role_ids", VList [VInt 200])]] /\
  entities st' !! KChannel 100 = Some 0%nat /\
  entities st' !! KRole 42 200 = Some 1%nat /\
  entities st' !! KGuild 42 = Some 2%nat.
Proof. repeat split. Qed.

End GuildFacts.

(** ** The guild event processors *)

Module GuildEventsFacts.
Import Py Store Guild GuildEvents Props Samples StoreFacts.

Lemma quiet_run {A} (m : M A) st : quiet m -> trace (snd (m st)) = trace st.
Proof. intros H. by apply (H (trace st)). Qed.

Lemma quiet_put k fields : quiet (put k fields).
Proof. intros t st H. unfold put. by destruct (entities st !! k). Qed.

Lemma quiet_alloc fields : quiet (alloc fields).
Proof. by intros t st H. Qed.

Lemma quiet_copy v : quiet (copy v).
Proof. intros t st H. by destruct v. Qed.

Lemma quiet_record_from_dict data : quiet (record_from_dict data).
Proof.
  intros t. unfold record_from_dict.
  apply preserving_bind; [apply preserving_lift|]. intros d. apply quiet_alloc.
Qed.

Lemma quiet_place_emoji_data g data : quiet (place_emoji_data g data).
Proof.
  intros t st H. unfold place_emoji_data.
  destruct (to_snowflake g); [|done].
  destruct (as_payload data) as [d|]; [|done].
  destruct (payload_id d); [|done].
  destruct (emoji_cache st) as [m|]; [|done].
  by destruct (m !! _).
Qed.

Lemma dispatches_once_dispatch e : dispatches_once (dispatch e).
Proof. intros st. simpl. by exists e. Qed.

Lemma dispatches_once_bind {A B} (m : M A) (f : A -> M B) :
  quiet m -> (forall a, dispatches_once (f a)) -> dispatches_once (m ≫= f).
Proof.
  intros Hm Hf st. rewrite run_bind.
  pose proof (quiet_run m st Hm) as Ht.
  destruct (m st) as [[a|e] st1]; simpl in Ht.
  - specialize (Hf a st1). destruct (f a st1) as [[b|e] st2]; by rewrite <- Ht.
  - done.
Qed.

Lemma quiet_lift {A} (r : result A) : quiet (lift r).
Proof. intros t. apply preserving_lift. Qed.

Lemma quiet_gets {A} (f : client -> A) : quiet (gets f).
Proof. intros t. apply preserving_gets. Qed.

Lemma quiet_ret {A} (a : A) : quiet (mret a).
Proof. intros t. apply preserving_ret. Qed.

Lemma quiet_bind {A B} (m : M A) (f : A -> M B) :
  quiet m -> (forall a, quiet (f a)) -> quiet (m ≫= f).
Proof. intros Hm Hf t. apply preserving_bind; [apply Hm|]. intros a. apply Hf. Qed.

Lemma quiet_for_each {A B} (f : A -> M B) l : (forall a, quiet (f a)) -> quiet (for_each f l).
Proof. intros Hf t. apply preserving_for_each. intros a. apply Hf. Qed.

Lemma quiet_place kind data : quiet (place kind data).
Proof. intros t. apply preserving_place. intros k f. apply quiet_put. Qed.

Lemma quiet_get_emoji id : quiet (get_emoji id).
Proof. intros t. apply preserving_get_emoji. Qed.

Lemma quiet_place_guild_data data : quiet (place_guild_data data).
Proof. intros t. apply preserving_place_guild_data. intros k f. apply quiet_put. Qed.

Create HintDb quiet.
#[local] Hint Resolve quiet_put quiet_alloc quiet_copy quiet_record_from_dict
  quiet_place_emoji_data quiet_lift quiet_gets quiet_ret quiet_place
  quiet_get_emoji quiet_place_guild_data dispatches_once_dispatch : quiet.

Ltac quiet_steps :=
  repeat first
    [ apply dispatches_once_dispatch
    | apply dispatches_once_bind; [|intros ?]
    | apply quiet_bind; [|intros ?]
    | apply quiet_for_each; intros ?
    | match goal with |- quiet (if ?b then _ else _) => destruct b end
    | solve [auto with quiet] ].

Lemma sub_entity_dispatches_once k data :
  sub_entity k = true -> dispatches_once (processor k data).
Proof.
  destruct k; try discriminate; intros _; simpl.
  - unfold _on_raw_guild_ban_add, place_user_data. quiet_steps.
  - unfold _on_raw_guild_ban_remove, place_user_data. quiet_steps.
  - unfold _on_raw_integration_create. quiet_steps.
  - unfold _on_raw_integration_update. quiet_steps.
  - unfold _on_raw_integration_delete. quiet_steps.
  - unfold _on_raw_guild_emojis_update. quiet_steps.
  - unfold _on_raw_guild_stickers_update. quiet_steps.
  - unfold _on_raw_webhook_update. quiet_steps.
Qed.



(** *** Guild create *)

Lemma place_guild_data_env data st :
  let st1 := snd (place_guild_data data st) in
  trace st1 = trace st /\ fetch_members st1 = fetch_members st /\
  chunked st1 = chunked st.
Proof.
  simpl. pose proof (place_guild_data_store_only data st) as H.
  split; [by apply store_only_trace|].
  by destruct (store_only_env _ _ H) as (? & ? & _).
Qed.


(** The create of guild 42 with member fetching enabled, and with it
    disabled. *)
Lemma guild_join_example :
  trace (snd (_on_raw_guild_create joined_payload
                (fresh_client true false (fun _ => None)))) =
  [Suspend (MemberChunks 0); Dispatch (GuildJoin (VObj 0))] /\
  trace joined_client = [Dispatch (GuildJoin (VObj 0))].
Proof. repeat split. Qed.

(** *** Guild delete *)

Lemma get_guild_run id st : get_guild id st = (Ok (cached_guild st id), st).
Proof.
  unfold get_guild, get_entity, cached_guild.
  destruct (to_snowflake id); [|done]. by destruct (entities st !! _).
Qed.

Lemma cached_guild_cases st guild_id :
  let v := or_MISSING (cached_guild st (VInt guild_id)) in
  (v = VMissing \/ exists l, v = VObj l /\ entities st !! KGuild guild_id = Some l) /\
  (entities st !! KGuild guild_id = None -> v = VMissing) /\
  (0 <= guild_id < 2 ^ 64 ->
   forall l, entities st !! KGuild guild_id = Some l -> v = VObj l).
Proof.
  simpl. unfold cached_guild, to_snowflake. simpl.
  destruct (0 <=? guild_id)%Z eqn:H0; simpl.
  2: { split; [by left|]. split; [done|]. intros []. lia. }
  destruct (guild_id <? 2 ^ 64)%Z eqn:H1; simpl.
  2: { split; [by left|]. split; [done|]. intros []. lia. }
  destruct (entities st !! KGuild guild_id) as [l|]; simpl.
  - split; [right; by exists l|]. split; [done|]. by intros _ ? [= <-].
  - split; [by left|]. split; [done|]. done.
Qed.

Lemma cached_guild_guild_ids st ids guild_id :
  cached_guild (set_guild_ids ids st) guild_id = cached_guild st guild_id.
Proof. reflexivity. Qed.

Lemma delete_guild_evicts guild_id st :
  entities (snd (delete_guild guild_id st)) !! KGuild guild_id = None.
Proof.
  simpl. apply map_lookup_filter_None. right. intros l _. simpl.
  by rewrite Z.eqb_refl.
Qed.

Lemma guild_unavailable_run data st guild_id :
  py_int (get "id" data) = Ok guild_id ->
  truthy (get_default "unavailable" (VBool false) data) = true ->
  _on_raw_guild_delete data st =
  (Ok tt, set_trace (trace st ++ [Dispatch (GuildUnavailable guild_id
            (or_MISSING (cached_guild st (VInt guild_id))))]) st).
Proof.
  intros Hid Hun. unfold _on_raw_guild_delete.
  rewrite run_bind. unfold lift at 1. rewrite Hid, Hun.
  rewrite run_bind, get_guild_run. reflexivity.
Qed.

Lemma guild_left_run data st guild_id :
  py_int (get "id" data) = Ok guild_id ->
  truthy (get_default "unavailable" (VBool false) data) = false ->
  exists st',
    _on_raw_guild_delete data st = (Ok tt, st') /\
    trace st' = trace st ++ [Evict guild_id; Dispatch (GuildLeft guild_id
                  (or_MISSING (cached_guild st (VInt guild_id))))] /\
    entities st' !! KGuild guild_id = None /\
    heap st' = heap st /\
    guild_ids st' = (if bool_decide (guild_id ∈ guild_ids st)
                     then guild_ids st ∖ {[guild_id]} else guild_ids st).
Proof.
  intros Hid Hun. unfold _on_raw_guild_delete.
  rewrite run_bind. unfold lift at 1. rewrite Hid, Hun.
  rewrite run_bind. unfold gets at 1.
  destruct (bool_decide (guild_id ∈ guild_ids st)).
  - rewrite run_bind. unfold modify at 1.
    rewrite run_bind, get_guild_run, cached_guild_guild_ids.
    eexists. split; [reflexivity|]. simpl. rewrite <- app_assoc.
    split; [done|]. split; [|done].
    apply (delete_guild_evicts guild_id (set_guild_ids (guild_ids st ∖ {[guild_id]}) st)).
  - rewrite run_bind. simpl. rewrite run_bind, get_guild_run.
    eexists. split; [reflexivity|]. simpl. rewrite <- app_assoc.
    split; [done|]. split; [|done]. apply (delete_guild_evicts guild_id st).
Qed.

(** C3, as amended.  The guild delete processor tells the two cases apart by
    the payload's [unavailable] flag.  When it is true the processor changes
    nothing in the client (the cached record is kept as it is, and nothing
    marks it) and dispatches [GuildUnavailable] with the cached record or
    [MISSING].  When it is false the record is first read, then evicted,
    and only then [GuildLeft] is dispatched with the record read or
    [MISSING]; the evicted object itself stays in the object store. *)
Theorem guild_delete_unavailable_or_removed (data : dict) (st : client) (guild_id : Z) :
  py_int (get "id" data) = Ok guild_id ->
  exists last_known,
    (last_known = VMissing \/
     exists l, last_known = VObj l /\ entities st !! KGuild guild_id = Some l) /\
    (entities st !! KGuild guild_id = None -> last_known = VMissing) /\
    (0 <= guild_id < 2 ^ 64 ->
     forall l, entities st !! KGuild guild_id = Some l -> last_known = VObj l) /\
    if truthy (get_default "unavailable" (VBool false) data)
    then _on_raw_guild_delete data st =
         (Ok tt, set_trace (trace st ++
                   [Dispatch (GuildUnavailable guild_id last_known)]) st)
    else exists st',
         _on_raw_guild_delete data st = (Ok tt, st') /\
         trace st' = trace st ++
                     [Evict guild_id; Dispatch (GuildLeft guild_id last_known)] /\
         entities st' !! KGuild guild_id = None /\
         heap st' = heap st.
Proof.
  intros Hid. exists (or_MISSING (cached_guild st (VInt guild_id))).
  destruct (cached_guild_cases st guild_id) as (H1 & H2 & H3).
  repeat (split; [assumption|]).
  destruct (truthy _) eqn:Hun.
  - by apply guild_unavailable_run.
  - destruct (guild_left_run data st guild_id Hid Hun) as (st' & ? & ? & ? & ? & _).
    by exists st'.
Qed.

(** C9.  A removed-kind guild delete for a guild that is neither among the
    client user's guild ids nor in the cache does not raise: the set of
    guild ids is left as it is, the cache's [delete_guild] still runs, and
    [GuildLeft] is dispatched with the id and [MISSING]. *)
Theorem guild_left_for_unknown_guild (data : dict) (st : client) (guild_id : Z) :
  py_int (get "id" data) = Ok guild_id ->
  truthy (get_default "unavailable" (VBool false) data) = false ->
  guild_id ∉ guild_ids st ->
  entities st !! KGuild guild_id = None ->
  exists st',
    _on_raw_guild_delete data st = (Ok tt, st') /\
    guild_ids st' = guild_ids st /\
    trace st' = trace st ++ [Evict guild_id; Dispatch (GuildLeft guild_id VMissing)].
Proof.
  intros Hid Hun Hids Hcache.
  destruct (guild_left_run data st guild_id Hid Hun) as (st' & Hrun & Ht & _ & _ & Hg).
  exists st'. split; [done|].
  rewrite (bool_decide_eq_false_2 _ Hids) in Hg. split; [done|].
  destruct (cached_guild_cases st guild_id) as (_ & H2 & _).
  simpl in H2. by rewrite (H2 Hcache) in Ht.
Qed.

(** *** Guild update *)

Lemma fetch_guild_run id st :
  fetch_guild id st =
  match to_snowflake id with
  | Raise e => (Raise e, st)
  | Ok guild_id =>
      match entities st !! KGuild guild_id with
      | Some l => (Ok (VObj l), st)
      | None =>
          let st0 := set_trace (trace st ++ [Suspend (OriginGuild guild_id)]) st in
          match origin st guild_id with
          | None => (Raise FetchFailed, st0)
          | Some payload =>
              match place_guild_data (VDict payload) st0 with
              | (Ok l, st1) => (Ok (VObj l), st1)
              | (Raise e, st1) => (Raise e, st1)
              end
          end
      end
  end.
Proof.
  unfold fetch_guild. rewrite run_bind. unfold lift at 1.
  destruct (to_snowflake id) as [guild_id|]; [|done].
  rewrite run_bind. unfold gets at 1.
  destruct (entities st !! KGuild guild_id) as [l|]; [done|].
  rewrite run_bind. unfold emit at 1, modify at 1.
  rewrite run_bind. unfold gets at 1. simpl.
  destruct (origin st guild_id) as [payload|]; [|done].
  rewrite run_bind. by destruct (place_guild_data _ _) as [[l|e] st1].
Qed.

Lemma fetch_guild_object id st guild st1 :
  fetch_guild id st = (Ok guild, st1) -> exists g, guild = VObj g.
Proof.
  rewrite fetch_guild_run.
  destruct (to_snowflake id) as [guild_id|]; [|discriminate].
  destruct (entities st !! KGuild guild_id) as [l|].
  - intros [= <- <-]. by exists l.
  - simpl. destruct (origin st guild_id) as [payload|]; [|discriminate].
    destruct (place_guild_data _ _) as [[l|e] st']; [|discriminate].
    intros [= <- <-]. by exists l.
Qed.

Lemma fetch_guild_allocated id st :
  allocated st -> allocated (snd (fetch_guild id st)).
Proof.
  intros H. rewrite fetch_guild_run.
  destruct (to_snowflake id) as [guild_id|]; [|done].
  destruct (entities st !! KGuild guild_id) as [l|]; [done|]. simpl.
  destruct (origin st guild_id) as [payload|]; [|done].
  pose proof (preserving_place_guild_data allocated allocated_put (VDict payload)
                (set_trace (trace st ++ [Suspend (OriginGuild guild_id)]) st) H) as H'.
  by destruct (place_guild_data _ _) as [[l|e] st'].
Qed.

Lemma copy_object g st :
  copy (VObj g) st =
  (Ok (VObj (length (heap st))), set_heap (heap st ++ [fields_of g st]) st).
Proof. reflexivity. Qed.

Lemma copy_unreferenced g st :
  allocated st ->
  unreferenced (length (heap st)) (fields_of g st)
               (set_heap (heap st ++ [fields_of g st]) st).
Proof.
  intros H. split; simpl.
  - by rewrite list_lookup_middle.
  - eapply map_Forall_impl; [exact H|]. simpl. intros; lia.
Qed.


(** *** Emoji update *)

(** C5 fails at an emoji that was not cached: with the emoji cache enabled
    and holding emoji 1, an update that brings emoji 2 dispatches an event
    whose [before] entry for emoji 2 is [None], not [MISSING]. *)
Lemma emojis_update_before_entry_is_none :
  emoji_cache_truthy one_emoji_client = true /\
  fst (get_emoji (VStr "2") one_emoji_client) = Ok VNone /\
  trace (snd (_on_raw_guild_emojis_update
                [("guild_id", VStr "42");
                 ("emojis", VList [VDict [("id", VStr "2"); ("name", VStr "b")]])]
                one_emoji_client)) =
  [Dispatch (GuildEmojisUpdate (VStr "42") [VNone] [VObj 1])].
Proof. repeat split. Qed.

(** With the emoji cache disabled, and also with an enabled cache that
    holds nothing yet, the [before] list is empty; the [after] list has one
    record for every emoji of the payload. *)
Lemma emojis_update_before_empty :
  trace (snd (_on_raw_guild_emojis_update
                [("guild_id", VStr "42");
                 ("emojis", VList [VDict [("id", VStr "2")]; VDict [("id", VStr "3")]])]
                (fresh_client false false (fun _ => None)))) =
  [Dispatch (GuildEmojisUpdate (VStr "42") [] [VObj 0; VObj 1])] /\
  trace (snd (_on_raw_guild_emojis_update
                [("guild_id", VStr "42");
                 ("emojis", VList [VDict [("id", VStr "2")]; VDict [("id", VStr "3")]])]
                (fresh_client false true (fun _ => None)))) =
  [Dispatch (GuildEmojisUpdate (VStr "42") [] [VObj 0; VObj 1])].
Proof. repeat split. Qed.

(** *** The theorems at work *)

Lemma joined_client_allocated : allocated joined_client.
Proof.
  unfold allocated. apply map_Forall_to_list. vm_compute. repeat constructor.
Qed.



(** Guild 42 becomes unavailable: the client is as it was but for the
    dispatched event, which carries the cached record. *)
Lemma guild_delete_unavailable_or_removed_witness :
  let data := [("id", VStr "42"); ("unavailable", VBool true)] in
  _on_raw_guild_delete data joined_client =
  (Ok tt, set_trace (trace joined_client ++
            [Dispatch (GuildUnavailable 42 (VObj 0))]) joined_client).
Proof.
  simpl.
  destruct (guild_delete_unavailable_or_removed
              [("id", VStr "42"); ("unavailable", VBool true)] joined_client 42
              eq_refl) as (last_known & _ & _ & Hl & Hrun).
  rewrite (Hl ltac:(lia) 0%nat eq_refl) in Hrun. exact Hrun.
Defined.

(** C3 as stated fails: after the unavailable-kind delete of guild 42 the
    cached record is kept but not marked, its [unavailable] field is still
    false. *)
Lemma guild_unavailable_record_is_not_marked :
  let data := [("id", VStr "42"); ("unavailable", VBool true)] in
  let st' := snd (_on_raw_guild_delete data joined_client) in
  entities st' !! KGuild 42 = Some 0%nat /\
  dict_get "unavailable" (fields_of 0 joined_client) = Some (VBool false) /\
  dict_get "unavailable" (fields_of 0 st') = Some (VBool false) /\
  heap st' = heap joined_client.
Proof. repeat split. Qed.

(** A client that has cached nothing leaves a guild it does not know. *)
Lemma guild_left_for_unknown_guild_witness :
  let st := fresh_client false false (fun _ => None) in
  exists st',
    _on_raw_guild_delete [("id", VStr "42")] st = (Ok tt, st') /\
    guild_ids st' = guild_ids st /\
    trace st' = [Evict 42; Dispatch (GuildLeft 42 VMissing)].
Proof.
  simpl.
  apply (guild_left_for_unknown_guild [("id", VStr "42")]
           (fresh_client false false (fun _ => None)) 42).
  - reflexivity.
  - reflexivity.
  - apply not_elem_of_empty.
  - apply lookup_empty.
Defined.

End GuildEventsFacts.

(** ** The relation accessors of a message *)

Module MessageFacts.
Import Py Store Props StoreFacts Message.

Lemma get_entity_miss kind id st :
  (forall n, to_snowflake id = Ok n -> entities st !! kind n = None) ->
  get_entity kind id st = (Ok VNone, st).
Proof.
  intros H. unfold get_entity. destruct (to_snowflake id) as [n|]; [|done].
  by rewrite (H n).
Qed.

Lemma author_run self st : exists a, author self st = (Ok a, st).
Proof.
  unfold author. destruct (truthy (_author_id self)); [|by eexists].
  rewrite run_bind.
  assert (Hm : exists m, (if truthy (_guild_id self)
                          then get_member (_guild_id self) (_author_id self)
                          else mret VNone) st = (Ok m, st)).
  { destruct (truthy (_guild_id self)); [|by eexists].
    unfold get_member, get_entity.
    destruct (to_snowflake (_guild_id self)) as [g|]; [|by eexists].
    destruct (to_snowflake (_author_id self)) as [n|]; [|by eexists].
    destruct (entities st !! KMember g n); by eexists. }
  destruct Hm as [m ->].
  destruct (truthy m); [by eexists|].
  unfold get_user, get_entity.
  destruct (to_snowflake (_author_id self)) as [n|]; [|by eexists].
  destruct (entities st !! KUser n); by eexists.
Qed.




End MessageFacts.

(** ** The store's invariants hold in every state the client reaches *)

Module ReachableFacts.
Import Py Store Guild GuildEvents Props StoreFacts.

Lemma preserving_modify P (f : client -> client) :
  (forall st, P st -> P (f st)) -> preserving P (modify f).
Proof. intros H st HP. by apply H. Qed.

Lemma wf_grow st h :
  wf st -> (length (heap st) <= length h)%nat -> wf (set_heap h st).
Proof.
  intros [Ha Hi] Hlen. split; [|done].
  unfold allocated in *. simpl.
  eapply map_Forall_impl; [exact Ha|]. simpl. intros; lia.
Qed.

Lemma wf_alloc fields : preserving wf (alloc fields).
Proof.
  intros st H. apply wf_grow; [done|]. rewrite length_app. simpl. lia.
Qed.

Lemma wf_setattr l name v : preserving wf (setattr l name v).
Proof. intros st H. apply wf_grow; [done|]. by rewrite length_alter. Qed.

Lemma wf_copy v : preserving wf (copy v).
Proof. intros st H. destruct v; try done. by apply (wf_alloc _ st). Qed.

Lemma wf_emit a : preserving wf (emit a).
Proof. by intros st H. Qed.

Lemma wf_put k fields : preserving wf (put k fields).
Proof. apply injective_put. Qed.

Lemma wf_record_from_dict data : preserving wf (record_from_dict data).
Proof.
  unfold record_from_dict. apply preserving_bind; [apply preserving_lift|].
  intros d. apply wf_alloc.
Qed.

Lemma wf_place_emoji_data g data : preserving wf (place_emoji_data g data).
Proof.
  intros st H. unfold place_emoji_data.
  destruct (to_snowflake g); [|done].
  destruct (as_payload data) as [d|]; [|done].
  destruct (payload_id d); [|done].
  destruct (emoji_cache st) as [m|].
  - destruct (m !! _); simpl.
    + apply wf_grow; [done|]. by rewrite length_alter.
    + apply (wf_grow st); [done|]. rewrite length_app. simpl. lia.
  - by apply (wf_alloc _ st).
Qed.

Lemma wf_delete_guild guild_id : preserving wf (delete_guild guild_id).
Proof.
  intros st [Ha Hi]. unfold delete_guild. simpl. split.
  - unfold allocated in *. simpl.
    apply map_Forall_lookup. intros k l Hk.
    apply map_lookup_filter_Some in Hk as [Hk _].
    by apply (map_Forall_lookup_1 _ _ _ _ Ha Hk).
  - unfold injective. simpl.
    apply map_Forall_lookup. intros k1 l1 H1.
    apply map_Forall_lookup. intros k2 l2 H2 <-.
    apply map_lookup_filter_Some in H1 as [H1 _].
    apply map_lookup_filter_Some in H2 as [H2 _].
    by apply (injective_lookup st k1 k2 l1).
Qed.

Lemma wf_place_guild_data data : preserving wf (place_guild_data data).
Proof. apply preserving_place_guild_data, wf_put. Qed.

Lemma wf_fetch_guild id : preserving wf (fetch_guild id).
Proof.
  unfold fetch_guild. apply preserving_bind; [apply preserving_lift|]. intros g.
  apply preserving_bind; [apply preserving_gets|]. intros [l|].
  - apply preserving_ret.
  - apply preserving_bind; [apply wf_emit|]. intros _.
    apply preserving_bind; [apply preserving_gets|]. intros [payload|].
    + apply preserving_bind; [apply wf_place_guild_data|]. intros l.
      apply preserving_ret.
    + apply preserving_lift.
Qed.

Ltac wf_steps :=
  repeat first
    [ apply wf_emit | apply wf_place_guild_data | apply wf_fetch_guild
    | apply wf_copy | apply wf_delete_guild | apply wf_record_from_dict
    | apply wf_place_emoji_data | apply wf_alloc | apply wf_setattr
    | apply preserving_get_entity | apply preserving_get_member
    | apply preserving_get_emoji
    | apply preserving_place; apply wf_put
    | apply preserving_modify; by intros ?
    | apply preserving_lift | apply preserving_gets | apply preserving_ret
    | apply preserving_for_each; intros ?
    | match goal with |- preserving _ (if ?b then _ else _) => destruct b end
    | apply preserving_bind; [|intros ?] ].

Lemma wf_processor k data : preserving wf (processor k data).
Proof.
  destruct k; simpl.
  - unfold _on_raw_guild_create, chunked_is_set, chunk, dispatch. wf_steps.
  - unfold _on_raw_guild_update, dispatch. wf_steps.
  - unfold _on_raw_guild_delete, get_guild, dispatch. wf_steps.
  - unfold _on_raw_guild_ban_add, place_user_data, dispatch. wf_steps.
  - unfold _on_raw_guild_ban_remove, place_user_data, dispatch. wf_steps.
  - unfold _on_raw_integration_create, dispatch. wf_steps.
  - unfold _on_raw_integration_update, dispatch. wf_steps.
  - unfold _on_raw_integration_delete, dispatch. wf_steps.
  - unfold _on_raw_guild_emojis_update, dispatch. wf_steps.
  - unfold _on_raw_guild_stickers_update, dispatch. wf_steps.
  - unfold _on_raw_webhook_update, dispatch. wf_steps.
Qed.

Lemma wf_channel DM self : preserving wf (Message.channel DM self).
Proof.
  unfold Message.channel, Message.from_dict_factory, Message.author,
    get_channel, get_user.
  wf_steps.
Qed.

(** The hypotheses on the store that the theorems on decomposition and on
    guild updates make hold in every state the client reaches. *)
Lemma reachable_wf st : reachable st -> wf st.
Proof.
  induction 1 as [fetch emoji net|k data st _ IH|DM self st _ IH].
  - apply wf_fresh_client.
  - by apply wf_processor.
  - by apply wf_channel.
Qed.

Lemma reachable_allocated st : reachable st -> allocated st.
Proof. intros H. by destruct (reachable_wf st H). Qed.

End ReachableFacts.

(** ** Auto-moderation: actions *)

Module ActionFacts.
Import Py AutoMod AutoModFacts.

Section Facts.
Context {E : EnumDecls}.

#[local] Arguments enum_call : simpl never.
#[local] Arguments AutoModTriggerType : simpl never.
#[local] Arguments AutoModAction : simpl never.
#[local] Arguments AutoModLanuguageType : simpl never.

Ltac break_action_call_in H :=
  match type of H with
  | context [dict_get ?k ?kw] => destruct (dict_get k kw) eqn:?
  | context [AutoModAction ?v] => destruct (AutoModAction v) eqn:?
  | context [AutoModTriggerType ?v] => destruct (AutoModTriggerType v) eqn:?
  end.

Lemma factory_known_action cls c t m :
  mapping_get ACTION_MAPPING t = Ok (Some c) ->
  BaseAction_from_dict_factory cls [("type", t); ("metadata", VDict m)]
  = Outcome [] (from_dict c (dict_update [("type", t)] m)).
Proof.
  intros H. unfold BaseAction_from_dict_factory.
  change (get "type" [("type", t); ("metadata", VDict m)]) with t.
  rewrite H. reflexivity.
Qed.

(** X1.  An action object whose type tag is the one [ACTION_MAPPING] maps to the
    object's own class round-trips: [as_dict] gives the dict with the type
    under ["type"] and the other fields under ["metadata"], and the factory
    makes of that dict, without logging, an action of the same class with
    the same field values. *)
Theorem action_roundtrip (c : class) (kwargs : dict) (o : instance) :
  is_trigger c = false ->
  construct c kwargs = Ok o ->
  mapping_get ACTION_MAPPING (get "type" (attrs_of o)) = Ok (Some c) ->
  let meta := List.filter (fun kv => negb (String.eqb (fst kv) "type")) (attrs_of o) in
  let d := [("type", get "type" (attrs_of o)); ("metadata", VDict meta)] in
  as_dict o = Ok d /\
  forall cls, BaseAction_from_dict_factory cls d = Outcome [] (Ok o).
Proof.
  intros Hact Hcons Hmap meta d.
  assert (Hfac : from_dict c (dict_update [("type", get "type" (attrs_of o))] meta) = Ok o
                 -> forall cls, BaseAction_from_dict_factory cls d = Outcome [] (Ok o)).
  { intros Hfd cls. subst d. rewrite (factory_known_action cls c); [|exact Hmap]. by rewrite Hfd. }
  clear Hmap.
  unfold construct in Hcons.
  destruct (existsb _ kwargs); [discriminate|].
  destruct c; try discriminate; simpl in Hcons; unfold init_value in Hcons; simpl in Hcons;
    repeat (break_action_call_in Hcons; simpl in Hcons; try discriminate);
    injection Hcons as <-;
    repeat match goal with
           | H : AutoModAction _ = Ok _ |- _ =>
               destruct (enum_call_member _ _ _ H) as [? ->]; clear H
           end.
  all: split; [reflexivity|]; apply Hfac; subst meta; cbn.
  all: unfold from_dict; cbn; unfold construct; cbn.
  all: unfold AutoModAction; rewrite ?enum_call_idem; cbn.
  all: reflexivity.
Qed.

(** X2.  A payload without a ["metadata"] entry is never made into an action,
    whatever its type: the factory raises [KeyError] (after logging the
    payload when the type is unknown), or [TypeError] for a type that cannot
    be looked up. *)
Theorem action_without_metadata_is_rejected (cls : class) (data : dict) :
  dict_get "metadata" data = None ->
  returned (BaseAction_from_dict_factory cls data) =
  match int_key (get "type" data) with
  | Raise e => Raise e
  | Ok _ => Raise KeyError
  end.
Proof.
  intros Hm. unfold BaseAction_from_dict_factory, mapping_get.
  destruct (int_key (get "type" data)) as [[n|]|e]; simpl; try reflexivity.
  all: unfold getitem; by rewrite Hm.
Qed.

End Facts.

(** An alert action built with its default type goes through [as_dict] and
    the factory unchanged. *)
Lemma action_roundtrip_witness :
  let o := Instance AlertMessage
             [("channel_id", VInt 5); ("type", VEnum "AutoModAction" 2)] in
  let d := [("type", VEnum "AutoModAction" 2);
            ("metadata", VDict [("channel_id", VInt 5)])] in
  @construct closed_enums AlertMessage [("channel_id", VInt 5)] = Ok o /\
  as_dict o = Ok d /\
  @BaseAction_from_dict_factory closed_enums BaseAction d = Outcome [] (Ok o).
Proof.
  simpl. split; [reflexivity|].
  destruct (@action_roundtrip closed_enums AlertMessage [("channel_id", VInt 5)]
              (Instance AlertMessage
                 [("channel_id", VInt 5); ("type", VEnum "AutoModAction" 2)]))
    as [H1 H2]; [reflexivity | reflexivity | reflexivity |].
  split; [exact H1 | exact (H2 BaseAction)].
Defined.

(** A block action as the gateway may send it, with its type alone. *)
Lemma action_without_metadata_is_rejected_witness :
  returned (@BaseAction_from_dict_factory closed_enums BaseAction [("type", VInt 1)])
  = Raise KeyError.
Proof.
  apply (@action_without_metadata_is_rejected closed_enums BaseAction
           [("type", VInt 1)]).
  reflexivity.
Defined.

End ActionFacts.

(** ** Guild payload decomposition: what holds for every payload *)

Module DecompositionFacts.
Import Py Store Guild Props Behaviour StoreFacts DictFacts GuildFacts.

Lemma for_each_length {A B} (f : A -> M B) l : forall st ys st',
  for_each f l st = (Ok ys, st') -> length ys = length l.
Proof.
  induction l as [|x l IH]; intros st ys st'; simpl.
  - by intros [= <- <-].
  - rewrite run_bind. destruct (f x st) as [[y|e] st1]; [|discriminate].
    rewrite run_bind. destruct (for_each f l st1) as [[ys'|e] st2] eqn:Hl; [|discriminate].
    intros [= <- <-]. simpl. by rewrite (IH _ _ _ Hl).
Qed.

Lemma roles_set_length k l roles :
  (length (roles_set k l roles) <= S (length roles))%nat.
Proof.
  induction roles as [|[k' l'] roles IH]; simpl; [lia|].
  destruct (Z.eqb k k'); simpl; lia.
Qed.

Lemma place_roles_length g items : forall roles st roles' st',
  place_roles g items roles st = (Ok roles', st') ->
  (length roles' <= length roles + length items)%nat.
Proof.
  induction items as [|x items IH]; intros roles st roles' st'; simpl.
  - intros [= <- <-]. lia.
  - rewrite run_bind. unfold lift at 1.
    destruct (as_payload x) as [d|]; [|discriminate].
    rewrite run_bind. unfold lift at 1.
    destruct (payload_id d) as [id|]; [|discriminate].
    rewrite run_bind. destruct (put _ _ st) as [[l|e] st1]; [|discriminate].
    intros H. apply IH in H.
    pose proof (roles_set_length id l roles). lia.
Qed.

(** What a run of [process_dict] that returns has gone through. *)
Lemma process_dict_run data st normalized st' :
  process_dict data st = (Ok normalized, st') ->
  exists channels threads members roles cids tids mids rids,
    embedded "channels" data = Ok channels /\
    embedded "threads" data = Ok threads /\
    embedded "members" data = Ok members /\
    embedded "roles" data = Ok roles /\
    normalized = normalized_payload data (VList cids) (VList tids) (VList mids)
                                    (VList rids) /\
    length cids = length channels /\
    length tids = length threads /\
    length mids = length members /\
    (length rids <= length roles)%nat.
Proof.
  unfold process_dict, pop_default, embedded.
  rewrite run_bind. unfold lift at 1.
  destruct (getitem "id" data) as [guild_id|]; [|discriminate].
  rewrite run_bind. unfold lift at 1.
  destruct (iterate (get_default "channels" _ data)) as [channels|]; [|discriminate].
  rewrite run_bind.
  destruct (for_each _ channels st) as [[cids|] st1] eqn:Hc; [|discriminate].
  rewrite run_bind. unfold lift at 1.
  rewrite get_default_set_remove by done.
  destruct (iterate (get_default "threads" _ data)) as [threads|]; [|discriminate].
  rewrite run_bind.
  destruct (for_each _ threads st1) as [[tids|] st2] eqn:Ht; [|discriminate].
  rewrite run_bind. unfold lift at 1.
  rewrite !get_default_set_remove by done.
  destruct (iterate (get_default "members" _ data)) as [members|]; [|discriminate].
  rewrite run_bind.
  destruct (for_each _ members st2) as [[mids|] st3] eqn:Hm; [|discriminate].
  rewrite run_bind. unfold place_role_data.
  rewrite run_bind. unfold lift at 1.
  destruct (to_snowflake guild_id) as [g|]; [|discriminate].
  rewrite run_bind. unfold lift at 1.
  rewrite !get_default_set_remove by done.
  destruct (iterate (get_default "roles" _ data)) as [roles|]; [|discriminate].
  destruct (place_roles g roles [] st3) as [[placed|] st4] eqn:Hr; [|discriminate].
  intros [= <- <-].
  exists channels, threads, members, roles, cids, tids, mids,
    (map (fun kl => VInt (fst kl)) placed).
  repeat (split; [reflexivity|]).
  split; [by apply for_each_length in Hc|].
  split; [by apply for_each_length in Ht|].
  split; [by apply for_each_length in Hm|].
  rewrite length_map. apply place_roles_length in Hr. simpl in Hr. lia.
Qed.

(** X4.  Whenever [process_dict] returns, and whatever the payload holds, what it
    returns has the four identifier lists and none of the four relation
    fields, and every other field is as it was in the payload; a relation
    field the payload does not have gives an empty list.  The lists of
    channels, threads and members have one entry for each embedded object,
    the list of roles at most one. *)
Theorem process_dict_result_shape (data : dict) (st : client) (normalized : dict)
    (st' : client) :
  process_dict data st = (Ok normalized, st') ->
  exists channels threads members roles cids tids mids rids,
    embedded "channels" data = Ok channels /\
    embedded "threads" data = Ok threads /\
    embedded "members" data = Ok members /\
    embedded "roles" data = Ok roles /\
    dict_get "channel_ids" normalized = Some (VList cids) /\
    dict_get "thread_ids" normalized = Some (VList tids) /\
    dict_get "member_ids" normalized = Some (VList mids) /\
    dict_get "role_ids" normalized = Some (VList rids) /\
    (forall field, In field ["channels"; "threads"; "members"; "roles"] ->
                   dict_get field normalized = None) /\
    (forall field,
       ~ In field ["channels"; "threads"; "members"; "roles";
                   "channel_ids"; "thread_ids"; "member_ids"; "role_ids"] ->
       dict_get field normalized = dict_get field data) /\
    length cids = length channels /\
    length tids = length threads /\
    length mids = length members /\
    (length rids <= length roles)%nat.
Proof.
  intros H.
  destruct (process_dict_run _ _ _ _ H)
    as (cs & ts & ms & rs & c & t & m & r & Hc & Ht & Hm & Hr & -> & Hl).
  destruct (normalized_payload_lookup data (VList c) (VList t) (VList m) (VList r))
    as (L1 & L2 & L3 & L4 & L5 & L6).
  exists cs, ts, ms, rs, c, t, m, r. by repeat (split; [assumption|]).
Qed.

(** The identifier of the payload is among the fields that stay. *)
Lemma process_dict_id data st normalized st' :
  process_dict data st = (Ok normalized, st') ->
  dict_get "id" normalized = dict_get "id" data.
Proof.
  intros H.
  destruct (process_dict_run _ _ _ _ H)
    as (? & ? & ? & ? & c & t & m & r & _ & _ & _ & _ & -> & _).
  destruct (normalized_payload_lookup data (VList c) (VList t) (VList m) (VList r))
    as (_ & _ & _ & _ & _ & L).
  apply L. simpl. intros Hin.
  repeat (destruct Hin as [Hin|Hin]; [discriminate|]). exact Hin.
Qed.

(** *** The keys decomposition writes *)

Lemma keeps_keys_refl st : keeps_keys st st.
Proof. by intros k l. Qed.

Section Kinds.
Context (P : client -> Prop) (written : key -> Prop).
Hypothesis P_put : forall k fields, written k -> preserving P (put k fields).
Hypothesis written_channel : forall id, written (KChannel id).
Hypothesis written_member : forall g id, written (KMember g id).
Hypothesis written_role : forall g id, written (KRole g id).

Lemma kinds_place kind data :
  (forall id, written (kind id)) -> preserving P (place kind data).
Proof.
  intros Hk. unfold place. apply preserving_bind; [apply preserving_lift|]. intros d.
  apply preserving_bind; [apply preserving_lift|]. intros id. by apply P_put.
Qed.

Lemma kinds_place_roles g items : forall roles, preserving P (place_roles g items roles).
Proof.
  induction items as [|x items IH]; intros roles; simpl.
  - apply preserving_ret.
  - apply preserving_bind; [apply preserving_lift|]. intros d.
    apply preserving_bind; [apply preserving_lift|]. intros id.
    apply preserving_bind; [by apply P_put|]. intros l. apply IH.
Qed.

Lemma kinds_process_dict data : preserving P (process_dict data).
Proof.
  unfold process_dict, pop_default.
  apply preserving_bind; [apply preserving_lift|]. intros guild_id.
  apply preserving_bind; [apply preserving_lift|]. intros cs.
  apply preserving_bind;
    [apply preserving_for_each, preserving_place_then_id; intros a;
     by apply kinds_place|].
  intros cids.
  apply preserving_bind; [apply preserving_lift|]. intros ts.
  apply preserving_bind;
    [apply preserving_for_each, preserving_place_then_id; intros a;
     by apply kinds_place|].
  intros tids.
  apply preserving_bind; [apply preserving_lift|]. intros ms.
  apply preserving_bind.
  { apply preserving_for_each, preserving_place_then_id. intros a.
    unfold place_member_data. apply preserving_bind; [apply preserving_lift|].
    intros g. by apply kinds_place. }
  intros mids.
  apply preserving_bind; [|intros roles; apply preserving_ret].
  unfold place_role_data. apply preserving_bind; [apply preserving_lift|].
  intros g. apply preserving_bind; [apply preserving_lift|].
  intros items. apply kinds_place_roles.
Qed.

End Kinds.

Lemma put_other_key k k' fields st :
  k ≠ k' -> entities (snd (put k fields st)) !! k' = entities st !! k'.
Proof.
  intros Hne. unfold put. destruct (entities st !! k); simpl; [done|].
  by rewrite lookup_insert_ne.
Qed.

Lemma keeps_keys_put st0 k fields : preserving (keeps_keys st0) (put k fields).
Proof.
  intros st H k' l Hk'. apply H in Hk'.
  destruct (decide (k = k')) as [<-|Hne].
  - unfold put. by rewrite Hk'.
  - by rewrite put_other_key.
Qed.


(** *** No rollback *)

Lemma for_each_app_raise {A B} (f : A -> M B) l1 x l2 e : forall st ys st1 st2,
  for_each f l1 st = (Ok ys, st1) ->
  f x st1 = (Raise e, st2) ->
  for_each f (l1 ++ x :: l2) st = (Raise e, st2).
Proof.
  induction l1 as [|a l1 IH]; intros st ys st1 st2; simpl.
  - intros [= <- <-] Hx. by rewrite run_bind, Hx.
  - rewrite !run_bind. destruct (f a st) as [[y|e'] st'] ; [|discriminate].
    rewrite !run_bind.
    destruct (for_each f l1 st') as [[ys'|e'] st''] eqn:Hl; [|discriminate].
    intros [= <- <-] Hx. by rewrite (IH _ _ _ _ Hl Hx).
Qed.

Lemma place_then_id_raise kind x e st :
  embedded_id x = Raise e ->
  (c ← place kind x; getattr c "id") st = (Raise e, st).
Proof.
  unfold embedded_id. intros Hx. rewrite run_bind. unfold place.
  rewrite run_bind. unfold lift at 1.
  destruct (as_payload x) as [d|]; [|by injection Hx as <-].
  simpl in Hx. rewrite run_bind. unfold lift at 1. by rewrite Hx.
Qed.

(** X6.  Decomposition is not undone when it fails: if an embedded channel has no
    usable identifier, [process_dict] raises what the identifier's
    conversion raises, and the channels before it in the payload are in the
    store all the same. *)
Theorem process_dict_keeps_what_it_placed
    (data : dict) (st : client) (guild_id : value)
    (placed rest : list value) (bad : value) (ids : list Z) (e : exn) :
  wf st ->
  getitem "id" data = Ok guild_id ->
  embedded "channels" data = Ok (placed ++ bad :: rest) ->
  map_result embedded_id placed = Ok ids ->
  embedded_id bad = Raise e ->
  exists st',
    process_dict data st = (Raise e, st') /\
    wf st' /\
    (forall i, In i ids -> stored st' (KChannel i)) /\
    (forall k, stored st k -> stored st' k).
Proof.
  intros Hwf Hid Hc Hids Hbad. unfold embedded in Hc.
  destruct (place_ids KChannel placed ids st (fun n => eq_refl) Hwf Hids)
    as (st1 & Hrun & Hwf1 & Hs & Hm).
  exists st1. split; [|done].
  unfold process_dict, pop_default.
  rewrite run_bind. unfold lift at 1. rewrite Hid.
  rewrite run_bind. unfold lift at 1. rewrite Hc.
  unfold place_channel_data. rewrite run_bind.
  by rewrite (for_each_app_raise _ _ _ _ _ _ _ _ _ Hrun
                (place_then_id_raise KChannel bad e st1 Hbad)).
Qed.

(** *** The theorems at work *)

(** A payload with an identifier and a name and no relation field. *)
Lemma process_dict_result_shape_witness :
  let data := [("id", VInt 42); ("name", VStr "g")] in
  let normalized :=
    [("id", VInt 42); ("name", VStr "g"); ("channel_ids", VList []);
     ("thread_ids", VList []); ("member_ids", VList []); ("role_ids", VList [])] in
  exists channels threads members roles cids tids mids rids,
    embedded "channels" data = Ok channels /\
    embedded "threads" data = Ok threads /\
    embedded "members" data = Ok members /\
    embedded "roles" data = Ok roles /\
    dict_get "channel_ids" normalized = Some (VList cids) /\
    dict_get "thread_ids" normalized = Some (VList tids) /\
    dict_get "member_ids" normalized = Some (VList mids) /\
    dict_get "role_ids" normalized = Some (VList rids) /\
    (forall field, In field ["channels"; "threads"; "members"; "roles"] ->
                   dict_get field normalized = None) /\
    (forall field,
       ~ In field ["channels"; "threads"; "members"; "roles";
                   "channel_ids"; "thread_ids"; "member_ids"; "role_ids"] ->
       dict_get field normalized = dict_get field data) /\
    length cids = length channels /\
    length tids = length threads /\
    length mids = length members /\
    (length rids <= length roles)%nat.
Proof.
  cbv zeta.
  apply (process_dict_result_shape [("id", VInt 42); ("name", VStr "g")]
           (fresh_client false false (fun _ => None))
           [("id", VInt 42); ("name", VStr "g"); ("channel_ids", VList []);
            ("thread_ids", VList []); ("member_ids", VList []);
            ("role_ids", VList [])]
           (fresh_client false false (fun _ => None))).
  reflexivity.
Defined.

(** A payload whose second channel has no identifier: the first channel is
    stored. *)
Lemma process_dict_keeps_what_it_placed_witness :
  let data := [("id", VInt 42);
               ("channels", VList [VDict [("id", VInt 100)];
                                   VDict [("name", VStr "x")]])] in
  exists st',
    process_dict data (fresh_client false false (fun _ => None)) = (Raise KeyError, st') /\
    wf st' /\
    (forall i, In i [100] -> stored st' (KChannel i)) /\
    (forall k, stored (fresh_client false false (fun _ => None)) k -> stored st' k).
Proof.
  simpl.
  apply (process_dict_keeps_what_it_placed
           [("id", VInt 42);
            ("channels", VList [VDict [("id", VInt 100)]; VDict [("name", VStr "x")]])]
           (fresh_client false false (fun _ => None)) (VInt 42)
           [VDict [("id", VInt 100)]] [] (VDict [("name", VStr "x")]) [100] KeyError).
  - apply wf_fresh_client.
  - reflexivity.
  - reflexivity.
  - reflexivity.
  - reflexivity.
Defined.

End DecompositionFacts.

(** ** Auto-moderation: the type inside the metadata *)

Module TriggerFacts.
Import Py AutoMod AutoModFacts DictFacts.

Section Facts.
Context {E : EnumDecls}.

#[local] Arguments enum_call : simpl never.
#[local] Arguments AutoModTriggerType : simpl never.
#[local] Arguments AutoModAction : simpl never.
#[local] Arguments AutoModLanuguageType : simpl never.

Ltac break_trigger_call_in H :=
  match type of H with
  | context [dict_get ?k ?kw] => destruct (dict_get k kw) eqn:?
  | context [AutoModTriggerType ?v] => destruct (AutoModTriggerType v) eqn:?
  | context [_keyword_converter ?v] => destruct (_keyword_converter v) eqn:?
  | context [list_converter ?f ?v] => destruct (list_converter f v) eqn:?
  end.

Lemma mapping_lookup_set k k' c c' m :
  mapping_lookup k (mapping_set k' c' m) = Some c ->
  c = c' \/ mapping_lookup k m = Some c.
Proof.
  induction m as [|[k1 c1] m IH]; simpl.
  - destruct (Z.eqb k k'); [|discriminate]. intros [= <-]. by left.
  - destruct (Z.eqb k' k1) eqn:H1; simpl.
    + apply Z.eqb_eq in H1 as <-.
      destruct (Z.eqb k k'); [|by right]. intros [= <-]. by left.
    + destruct (Z.eqb k k1); [by right|]. exact IH.
Qed.

Lemma trigger_mapping_classes v c :
  mapping_get TRIGGER_MAPPING v = Ok (Some c) -> is_trigger c = true.
Proof.
  unfold mapping_get. destruct (int_key v) as [[n|]|]; try discriminate.
  intros [= H]. unfold TRIGGER_MAPPING, mapping_of in H. cbn [fold_left fst snd] in H.
  repeat (apply mapping_lookup_set in H as [->|H]; [reflexivity|]).
  discriminate.
Qed.

Lemma dict_get_filter (keep : string -> bool) k d :
  keep k = true ->
  dict_get k (List.filter (fun kv => keep (fst kv)) d) = dict_get k d.
Proof.
  intros Hk. induction d as [|[k' v'] d IH]; simpl; [done|].
  destruct (keep k') eqn:Hk'; simpl.
  - by rewrite IH.
  - rewrite IH. destruct (String.eqb k k') eqn:He; [|done].
    apply String.eqb_eq in He as ->. congruence.
Qed.

Lemma dict_set_truthy k v d : truthy (VDict (dict_set k v d)) = true.
Proof.
  destruct d as [|[k' v'] d]; simpl; [done|]. by destruct (String.eqb k k').
Qed.

Lemma construct_trigger_type c kwargs o t :
  is_trigger c = true ->
  construct c kwargs = Ok o ->
  dict_get "type" kwargs = Some t ->
  AutoModTriggerType t = Ok (get "type" (attrs_of o)).
Proof.
  intros Hc Hcons Ht. unfold construct in Hcons.
  destruct (existsb _ kwargs); [discriminate|].
  destruct c; try discriminate; simpl in Hcons; unfold init_value in Hcons;
    simpl in Hcons; rewrite Ht in Hcons; simpl in Hcons;
    repeat (break_trigger_call_in Hcons; simpl in Hcons; try discriminate);
    by injection Hcons as <-.
Qed.

(** X3.  The trigger factory takes the class from ["trigger_type"] and the type
    attribute from the metadata when the metadata has a ["type"] of its own:
    the object it returns carries the metadata's type, converted, whatever
    the tag was. *)
Theorem metadata_type_overrides_the_tag
    (cls : class) (data m : dict) (t : value) (o : instance) :
  is_trigger cls = true ->
  dict_get "trigger_metadata" data = Some (VDict (dict_set "type" t m)) ->
  returned (BaseTrigger_from_dict_factory cls data) = Ok o ->
  AutoModTriggerType t = Ok (get "type" (attrs_of o)).
Proof.
  intros Hcls Hmeta. unfold BaseTrigger_from_dict_factory.
  destruct (mapping_get TRIGGER_MAPPING (get "trigger_type" data)) as [found|] eqn:Hmap;
    [|discriminate].
  cbn [returned]. unfold get_default. rewrite Hmeta.
  set (c := match found with Some c => c | None => cls end).
  assert (Hc : is_trigger c = true).
  { subst c. destruct found as [c|]; [|done]. by apply (trigger_mapping_classes _ _ Hmap). }
  unfold from_dict, _process_dict. rewrite Hc.
  change (get "trigger_metadata" _) with (VDict (dict_set "type" t m)).
  rewrite dict_set_truthy. cbn [mbind result_bind].
  intros Hcons. apply (construct_trigger_type c _ o t Hc Hcons).
  rewrite (dict_get_filter (is_field c)).
  - apply dict_get_update_set.
  - by destruct c.
Qed.

End Facts.

(** A payload tagged as a keyword trigger whose metadata says mention spam:
    a keyword trigger with the mention-spam type. *)
Lemma metadata_type_overrides_the_tag_witness :
  let data := [("trigger_type", VInt 1);
               ("trigger_metadata", VDict [("type", VInt 5)])] in
  returned (@BaseTrigger_from_dict_factory closed_enums BaseTrigger data) =
  Ok (Instance KeywordTrigger
        [("type", VEnum "AutoModTriggerType" 5); ("keyword_filter", VList [])]) /\
  @AutoModTriggerType closed_enums (VInt 5) = Ok (VEnum "AutoModTriggerType" 5).
Proof.
  simpl. split; [reflexivity|].
  apply (@metadata_type_overrides_the_tag closed_enums BaseTrigger
           [("trigger_type", VInt 1); ("trigger_metadata", VDict [("type", VInt 5)])]
           [] (VInt 5)
           (Instance KeywordTrigger
              [("type", VEnum "AutoModTriggerType" 5); ("keyword_filter", VList [])]));
    reflexivity.
Defined.

End TriggerFacts.

(** ** The processors: what every raw update keeps *)

Module ProcessorFacts.
Import Py Store Guild GuildEvents Props Samples Behaviour StoreFacts
  GuildEventsFacts MessageFacts ReachableFacts DecompositionFacts.

(** *** Properties kept by every processor *)

Section Invariant.
Context (P : client -> Prop).
Hypothesis P_put : forall k fields, preserving P (put k fields).
Hypothesis P_alloc : forall fields, preserving P (alloc fields).
Hypothesis P_emoji : forall g data, preserving P (place_emoji_data g data).
Hypothesis P_emit : forall a, preserving P (emit a).
Hypothesis P_guild_ids : forall ids st, P st -> P (set_guild_ids ids st).
Hypothesis P_guild_event : forall b st, P st -> P (set_guild_event b st).
Hypothesis P_chunked : forall c st, P st -> P (set_chunked c st).

Lemma invariant_copy v : preserving P (copy v).
Proof.
  destruct v; try apply preserving_ret. simpl.
  apply preserving_bind; [apply preserving_gets|]. intros st.
  apply preserving_bind; [apply P_alloc|]. intros l'. apply preserving_ret.
Qed.

Lemma invariant_record_from_dict data : preserving P (record_from_dict data).
Proof.
  unfold record_from_dict. apply preserving_bind; [apply preserving_lift|].
  intros d. apply P_alloc.
Qed.

Lemma invariant_place_guild_data data : preserving P (place_guild_data data).
Proof. by apply preserving_place_guild_data. Qed.

Lemma invariant_fetch_guild id : preserving P (fetch_guild id).
Proof.
  unfold fetch_guild. apply preserving_bind; [apply preserving_lift|]. intros g.
  apply preserving_bind; [apply preserving_gets|]. intros [l|].
  - apply preserving_ret.
  - apply preserving_bind; [apply P_emit|]. intros _.
    apply preserving_bind; [apply preserving_gets|]. intros [payload|].
    + apply preserving_bind; [apply invariant_place_guild_data|]. intros l.
      apply preserving_ret.
    + apply preserving_lift.
Qed.

Ltac invariant_steps :=
  repeat first
    [ apply P_emit | apply invariant_place_guild_data | apply invariant_fetch_guild
    | apply invariant_copy | apply invariant_record_from_dict
    | apply P_emoji | apply P_alloc
    | match goal with
      | H : forall g, preserving _ (delete_guild g) |- _ => apply H
      end
    | apply preserving_get_entity | apply preserving_get_member
    | apply preserving_get_emoji
    | apply preserving_place; apply P_put
    | apply preserving_modify; intros ? ?;
      first [by apply P_guild_ids | by apply P_guild_event | by apply P_chunked]
    | apply preserving_lift | apply preserving_gets | apply preserving_ret
    | apply preserving_for_each; intros ?
    | match goal with |- preserving _ (if ?b then _ else _) => destruct b end
    | apply preserving_bind; [|intros ?] ].

Lemma invariant_processor k data :
  (k = GUILD_DELETE -> forall g, preserving P (delete_guild g)) ->
  preserving P (processor k data).
Proof.
  intros Hdel. destruct k; simpl.
  - unfold _on_raw_guild_create, chunked_is_set, chunk, dispatch. invariant_steps.
  - unfold _on_raw_guild_update, dispatch. invariant_steps.
  - pose proof (Hdel eq_refl) as Hd.
    unfold _on_raw_guild_delete, get_guild, dispatch. invariant_steps.
  - unfold _on_raw_guild_ban_add, place_user_data, dispatch. invariant_steps.
  - unfold _on_raw_guild_ban_remove, place_user_data, dispatch. invariant_steps.
  - unfold _on_raw_integration_create, dispatch. invariant_steps.
  - unfold _on_raw_integration_update, dispatch. invariant_steps.
  - unfold _on_raw_integration_delete, dispatch. invariant_steps.
  - unfold _on_raw_guild_emojis_update, dispatch. invariant_steps.
  - unfold _on_raw_guild_stickers_update, dispatch. invariant_steps.
  - unfold _on_raw_webhook_update, dispatch. invariant_steps.
Qed.

End Invariant.


(** *** Cached objects stay where they are *)

Lemma keeps_keys_place_emoji_data st0 g data :
  preserving (keeps_keys st0) (place_emoji_data g data).
Proof.
  intros st H. unfold place_emoji_data.
  destruct (to_snowflake g); [|done].
  destruct (as_payload data) as [d|]; [|done].
  destruct (payload_id d); [|done].
  destruct (emoji_cache st) as [m|]; [|done]. by destruct (m !! _).
Qed.

Lemma keeps_keys_processor st0 k data :
  k ≠ GUILD_DELETE -> preserving (keeps_keys st0) (processor k data).
Proof.
  intros Hk. apply invariant_processor.
  - apply keeps_keys_put.
  - by intros fields st H.
  - apply keeps_keys_place_emoji_data.
  - by intros a st H.
  - by intros ids st H.
  - by intros b st H.
  - by intros c st H.
  - by intros ->.
Qed.

Lemma guild_left_entities data st guild_id :
  py_int (get "id" data) = Ok guild_id ->
  truthy (get_default "unavailable" (VBool false) data) = false ->
  entities (snd (_on_raw_guild_delete data st)) =
  filter (fun kl => key_of_guild guild_id (fst kl) = false) (entities st).
Proof.
  intros Hid Hun. unfold _on_raw_guild_delete.
  rewrite run_bind. unfold lift at 1. rewrite Hid, Hun.
  rewrite run_bind. unfold gets at 1.
  destruct (bool_decide (guild_id ∈ guild_ids st)).
  - rewrite run_bind. unfold modify at 1.
    by rewrite run_bind, get_guild_run.
  - rewrite run_bind. simpl. by rewrite run_bind, get_guild_run.
Qed.



(** *** One event for each update, dispatched last *)

Lemma no_dispatch_app s1 s2 : no_dispatch s1 -> no_dispatch s2 -> no_dispatch (s1 ++ s2).
Proof. unfold no_dispatch. intros H1 H2. by rewrite forallb_app, H1, H2. Qed.

Lemma quiet_undispatching {A} (m : M A) : quiet m -> undispatching m.
Proof.
  intros H st. exists []. split; [done|].
  by rewrite app_nil_r, (quiet_run m st H).
Qed.

Lemma undispatching_emit a : is_dispatch a = false -> undispatching (emit a).
Proof.
  intros Ha st. exists [a]. split; [|done].
  unfold no_dispatch. simpl. by rewrite Ha.
Qed.

Lemma undispatching_bind {A B} (m : M A) (f : A -> M B) :
  undispatching m -> (forall a, undispatching (f a)) -> undispatching (m ≫= f).
Proof.
  intros Hm Hf st. rewrite run_bind.
  destruct (Hm st) as (s1 & Hs1 & Ht1).
  destruct (m st) as [[a|e] st1]; simpl in *.
  - destruct (Hf a st1) as (s2 & Hs2 & Ht2).
    exists (s1 ++ s2). split; [by apply no_dispatch_app|].
    by rewrite Ht2, Ht1, app_assoc.
  - by exists s1.
Qed.

Lemma dispatches_last_dispatch e : dispatches_last (dispatch e).
Proof. intros st. exists []. split; [done|]. simpl. by exists e. Qed.

Lemma dispatches_last_bind {A B} (m : M A) (f : A -> M B) :
  undispatching m -> (forall a, dispatches_last (f a)) -> dispatches_last (m ≫= f).
Proof.
  intros Hm Hf st. rewrite run_bind.
  destruct (Hm st) as (s1 & Hs1 & Ht1).
  destruct (m st) as [[a|e] st1]; simpl in *.
  - destruct (Hf a st1) as (s2 & Hs2 & Ht2).
    exists (s1 ++ s2). split; [by apply no_dispatch_app|].
    destruct (f a st1) as [[b|e] st2].
    + destruct Ht2 as [ev Ht2]. exists ev. by rewrite Ht2, Ht1, !app_assoc.
    + by rewrite Ht2, Ht1, app_assoc.
  - by exists s1.
Qed.

Lemma dispatches_once_last {A} (m : M A) : dispatches_once m -> dispatches_last m.
Proof.
  intros H st. exists []. split; [done|]. specialize (H st).
  destruct (m st) as [[a|e] st']; simpl; [done|]. by rewrite app_nil_r.
Qed.

Lemma quiet_modify (f : client -> client) :
  (forall st, trace (f st) = trace st) -> quiet (modify f).
Proof. intros H t st Ht. simpl. by rewrite H. Qed.

Lemma quiet_get_entity kind id : quiet (get_entity kind id).
Proof. intros t. apply preserving_get_entity. Qed.

Lemma undispatching_fetch_guild id : undispatching (fetch_guild id).
Proof.
  unfold fetch_guild.
  apply undispatching_bind; [apply quiet_undispatching, quiet_lift|]. intros g.
  apply undispatching_bind; [apply quiet_undispatching, quiet_gets|]. intros [l|].
  - apply quiet_undispatching, quiet_ret.
  - apply undispatching_bind; [by apply undispatching_emit|]. intros _.
    apply undispatching_bind; [apply quiet_undispatching, quiet_gets|].
    intros [payload|].
    + apply undispatching_bind;
        [apply quiet_undispatching, quiet_place_guild_data|].
      intros l. apply quiet_undispatching, quiet_ret.
    + apply quiet_undispatching, quiet_lift.
Qed.

Lemma undispatching_chunk guild : undispatching (chunk guild).
Proof.
  unfold chunk. apply undispatching_bind; [by apply undispatching_emit|].
  intros _. by apply quiet_undispatching, quiet_modify.
Qed.

Lemma undispatching_delete_guild guild_id : undispatching (delete_guild guild_id).
Proof. intros st. exists [Evict guild_id]. by split. Qed.

(** X7.  Every processor of the module dispatches one event when it returns, as
    the last thing it does, and none when it raises; what comes before are
    suspensions and evictions only. *)
Theorem every_processor_dispatches_last (k : update_kind) (data : dict) (st : client) :
  exists steps,
    no_dispatch steps /\
    match processor k data st with
    | (Ok _, st') => exists e, trace st' = trace st ++ steps ++ [Dispatch e]
    | (Raise _, st') => trace st' = trace st ++ steps
    end.
Proof.
  revert st. change (dispatches_last (processor k data)).
  destruct (sub_entity k) eqn:Hk.
  { by apply dispatches_once_last, sub_entity_dispatches_once. }
  destruct k; try discriminate; simpl.
  - unfold _on_raw_guild_create.
    apply dispatches_last_bind;
      [apply quiet_undispatching, quiet_place_guild_data|]. intros guild.
    apply dispatches_last_bind; [apply quiet_undispatching, quiet_lift|]. intros id.
    apply dispatches_last_bind; [by apply quiet_undispatching, quiet_modify|].
    intros _.
    apply dispatches_last_bind; [by apply quiet_undispatching, quiet_modify|].
    intros _.
    apply dispatches_last_bind; [apply quiet_undispatching, quiet_gets|].
    intros fetch.
    apply dispatches_last_bind; [apply quiet_undispatching, quiet_gets|].
    intros is_set.
    apply dispatches_last_bind; [|intros _; apply dispatches_last_dispatch].
    destruct (fetch && negb is_set);
      [apply undispatching_chunk|apply quiet_undispatching, quiet_ret].
  - unfold _on_raw_guild_update.
    apply dispatches_last_bind; [apply undispatching_fetch_guild|]. intros guild.
    apply dispatches_last_bind; [apply quiet_undispatching, quiet_copy|].
    intros before.
    apply dispatches_last_bind;
      [apply quiet_undispatching, quiet_place_guild_data|].
    intros after. apply dispatches_last_dispatch.
  - unfold _on_raw_guild_delete.
    apply dispatches_last_bind; [apply quiet_undispatching, quiet_lift|].
    intros guild_id.
    destruct (truthy _).
    + apply dispatches_last_bind; [apply quiet_undispatching, quiet_get_entity|].
      intros guild. apply dispatches_last_dispatch.
    + apply dispatches_last_bind; [apply quiet_undispatching, quiet_gets|].
      intros known.
      apply dispatches_last_bind.
      { destruct known; [by apply quiet_undispatching, quiet_modify|].
        apply quiet_undispatching, quiet_ret. }
      intros _.
      apply dispatches_last_bind; [apply quiet_undispatching, quiet_get_entity|].
      intros guild.
      apply dispatches_last_bind; [apply undispatching_delete_guild|].
      intros _. apply dispatches_last_dispatch.
Qed.


(** *** Guild create, and create followed by delete *)

Lemma to_snowflake_range v n :
  to_snowflake v = Ok n -> py_int v = Ok n /\ 0 <= n < 2 ^ 64.
Proof.
  unfold to_snowflake. destruct (py_int v) as [m|]; [|discriminate]. simpl.
  destruct (0 <=? m)%Z eqn:H0; [|discriminate].
  destruct (m <? 2 ^ 64)%Z eqn:H1; [|discriminate].
  intros [= <-]. split; [done|]. lia.
Qed.

Lemma place_guild_data_key d st l st1 :
  place_guild_data (VDict d) st = (Ok l, st1) ->
  exists id, to_snowflake (get "id" d) = Ok id /\ entities st1 !! KGuild id = Some l.
Proof.
  unfold place_guild_data. rewrite run_bind. unfold lift at 1. simpl.
  rewrite run_bind.
  destruct (process_dict d st) as [[n|] s1] eqn:Hp; [|discriminate].
  rewrite run_bind. unfold lift at 1.
  destruct (payload_id n) as [id|] eqn:Hid; [|discriminate].
  destruct (put_cached (KGuild id) (dict_set "id" (VInt id) n) s1) as (l' & H1 & H2).
  destruct (put _ _ s1) as [r s2]. simpl in *. subst r.
  intros [= <- <-]. exists id. split; [|done].
  unfold payload_id, getitem in Hid. rewrite (process_dict_id _ _ _ _ Hp) in Hid.
  unfold get. by destruct (dict_get "id" d).
Qed.

Lemma guild_create_run data st st' :
  _on_raw_guild_create data st = (Ok tt, st') ->
  exists id guild st1 steps,
    to_snowflake (get "id" data) = Ok id /\
    place_guild_data (VDict data) st = (Ok guild, st1) /\
    entities st' !! KGuild id = Some guild /\
    entities st' = entities st1 /\
    heap st' = heap st1 /\
    guild_ids st' = {[id]} ∪ guild_ids st /\
    guild_event st' = true /\
    no_dispatch steps /\
    trace st' = trace st ++ steps ++ [Dispatch (GuildJoin (VObj guild))].
Proof.
  unfold _on_raw_guild_create. rewrite run_bind.
  destruct (place_guild_data (VDict data) st) as [[guild|] st1] eqn:Hp; [|discriminate].
  destruct (place_guild_data_key _ _ _ _ Hp) as (id & Hid & Hkey).
  pose proof (place_guild_data_store_only (VDict data) st) as Hso.
  rewrite Hp in Hso. simpl in Hso.
  pose proof (store_only_trace _ _ Hso) as Ht.
  destruct (store_only_env _ _ Hso) as (_ & _ & Hg & _).
  rewrite run_bind. unfold lift at 1. rewrite Hid.
  rewrite run_bind. unfold modify at 1.
  rewrite run_bind. unfold modify at 1.
  rewrite run_bind. unfold gets at 1.
  rewrite run_bind. unfold chunked_is_set, gets at 1.
  rewrite run_bind. cbn [fetch_members set_guild_event set_guild_ids chunked].
  destruct (fetch_members st1 && negb (bool_decide (guild ∈ chunked st1))).
  - intros [= <-]. exists id, guild, st1, [Suspend (MemberChunks guild)].
    simpl. rewrite Ht, Hg, <- app_assoc. by repeat split.
  - intros [= <-]. exists id, guild, st1, [].
    simpl. rewrite Ht, Hg. by repeat split.
Qed.

(** X9.  When the guild create processor returns, the guild is in the cache
    under the identifier of the payload, and the object the cache returns
    for that identifier is the one the [GuildJoin] event carries; the
    identifier is among the user's guild ids and the client's guild event is
    set. *)
Theorem guild_create_caches_the_guild (data : dict) (st st' : client) :
  _on_raw_guild_create data st = (Ok tt, st') ->
  exists id guild,
    to_snowflake (get "id" data) = Ok id /\
    get_guild (get "id" data) st' = (Ok (VObj guild), st') /\
    id ∈ guild_ids st' /\
    guild_event st' = true /\
    last (trace st') = Some (Dispatch (GuildJoin (VObj guild))).
Proof.
  intros H.
  destruct (guild_create_run _ _ _ H)
    as (id & guild & st1 & steps & Hid & _ & Hkey & _ & _ & Hg & He & _ & Ht).
  exists id, guild. split; [done|]. split; [|split; [|split; [done|]]].
  - unfold get_guild, get_entity. by rewrite Hid, Hkey.
  - rewrite Hg. apply elem_of_union. left. by apply elem_of_singleton.
  - by rewrite Ht, app_assoc, last_snoc.
Qed.

(** X10.  A guild that is created and then removed: the delete processor hands
    [GuildLeft] the very object [GuildJoin] carried, which stays in the
    object store with its fields; afterwards the cache has no record for the
    identifier and the identifier is no longer among the user's guild
    ids. *)
Theorem guild_created_then_left (data removal : dict) (st st1 : client) :
  _on_raw_guild_create data st = (Ok tt, st1) ->
  py_int (get "id" removal) = py_int (get "id" data) ->
  truthy (get_default "unavailable" (VBool false) removal) = false ->
  exists id guild st2,
    last (trace st1) = Some (Dispatch (GuildJoin (VObj guild))) /\
    _on_raw_guild_delete removal st1 = (Ok tt, st2) /\
    trace st2 = trace st1 ++ [Evict id; Dispatch (GuildLeft id (VObj guild))] /\
    heap st2 = heap st1 /\
    get_guild (VInt id) st2 = (Ok VNone, st2) /\
    id ∉ guild_ids st2.
Proof.
  intros Hc Hsame Hun.
  destruct (guild_create_run _ _ _ Hc)
    as (id & guild & s & steps & Hid & _ & Hkey & _ & _ & Hg & _ & _ & Ht).
  destruct (to_snowflake_range _ _ Hid) as [Hint Hrange].
  rewrite Hint in Hsame.
  destruct (guild_left_run removal st1 id Hsame Hun)
    as (st2 & Hrun & Ht2 & Hgone & Hheap & Hids).
  destruct (cached_guild_cases st1 id) as (_ & _ & Hknown).
  simpl in Hknown. rewrite (Hknown Hrange guild Hkey) in Ht2.
  exists id, guild, st2.
  split; [by rewrite Ht, app_assoc, last_snoc|].
  split; [done|]. split; [done|]. split; [done|]. split.
  - rewrite get_guild_run. unfold cached_guild.
    destruct (to_snowflake (VInt id)) as [n|] eqn:Hn; [|done].
    destruct (to_snowflake_range _ _ Hn) as [[= <-] _]. by rewrite Hgone.
  - rewrite Hids, Hg.
    rewrite bool_decide_eq_true_2.
    + intros Hin. apply elem_of_difference in Hin as [_ Hn].
      apply Hn. by apply elem_of_singleton.
    + apply elem_of_union. left. by apply elem_of_singleton.
Qed.

(** *** Payloads without an identifier *)

(** X12.  A guild create, update or delete whose payload has no [id] raises
    before anything is done: the client is left exactly as it was, and
    nothing is dispatched. *)
Theorem guild_update_without_id_changes_nothing (data : dict) (st : client) :
  dict_get "id" data = None ->
  _on_raw_guild_create data st = (Raise KeyError, st) /\
  _on_raw_guild_update data st = (Raise TypeError, st) /\
  _on_raw_guild_delete data st = (Raise TypeError, st).
Proof.
  intros Hid. split; [|split].
  - unfold _on_raw_guild_create. apply run_bind_raise.
    unfold place_guild_data. rewrite run_bind. unfold lift at 1. simpl.
    apply run_bind_raise. unfold process_dict. apply run_bind_raise.
    unfold lift, getitem. by rewrite Hid.
  - unfold _on_raw_guild_update. apply run_bind_raise.
    rewrite fetch_guild_run. unfold get. by rewrite Hid.
  - unfold _on_raw_guild_delete. apply run_bind_raise.
    unfold lift, get. by rewrite Hid.
Qed.


(** *** The snapshot of a guild update *)

Lemma put_emoji_cache k fields st :
  emoji_cache (snd (put k fields st)) = emoji_cache st.
Proof. unfold put. by destruct (entities st !! k). Qed.

Lemma put_heap_length k fields st :
  (length (heap st) <= length (heap (snd (put k fields st))))%nat.
Proof.
  unfold put. destruct (entities st !! k); simpl.
  - by rewrite length_alter.
  - rewrite length_app. simpl. lia.
Qed.

Lemma emoji_allocated_grow st st' :
  emoji_cache st' = emoji_cache st ->
  (length (heap st) <= length (heap st'))%nat ->
  emoji_allocated st -> emoji_allocated st'.
Proof.
  unfold emoji_allocated. intros -> Hlen.
  destruct (emoji_cache st) as [m|]; [|done]. intros H.
  eapply map_Forall_impl; [exact H|]. simpl. intros; lia.
Qed.

Lemma emoji_allocated_place_emoji_data g data :
  preserving emoji_allocated (place_emoji_data g data).
Proof.
  intros st H. unfold place_emoji_data.
  destruct (to_snowflake g); [|done].
  destruct (as_payload data) as [d|]; [|done].
  destruct (payload_id d) as [id|]; [|done].
  unfold emoji_allocated in *.
  destruct (emoji_cache st) as [m|] eqn:Hm; simpl.
  - destruct (m !! id) as [l|]; simpl.
    + rewrite Hm, length_alter. done.
    + rewrite length_app. simpl. apply map_Forall_insert_2; [lia|].
      eapply map_Forall_impl; [exact H|]. simpl. intros; lia.
  - by rewrite Hm.
Qed.

Lemma emoji_allocated_delete_guild g : preserving emoji_allocated (delete_guild g).
Proof.
  intros st H. unfold delete_guild, emoji_allocated in *. simpl.
  destruct (emoji_cache st) as [m|]; [|done]. simpl.
  apply map_Forall_lookup. intros k l Hk.
  apply map_lookup_filter_Some in Hk as [Hk _].
  by apply (map_Forall_lookup_1 _ _ _ _ H Hk).
Qed.

Lemma emoji_allocated_processor k data :
  preserving emoji_allocated (processor k data).
Proof.
  apply invariant_processor.
  - intros key fields st. apply emoji_allocated_grow.
    + apply put_emoji_cache.
    + apply put_heap_length.
  - intros fields st. apply emoji_allocated_grow; [done|].
    simpl. rewrite length_app. lia.
  - apply emoji_allocated_place_emoji_data.
  - intros a st H. exact H.
  - intros ids st H. exact H.
  - intros b st H. exact H.
  - intros c st H. exact H.
  - intros _. apply emoji_allocated_delete_guild.
Qed.

(** What reading a message's channel does to the client: it may add an
    object, and writes into no object that was there. *)
Lemma channel_run DM self st :
  exists r st',
    Message.channel DM self st = (r, st') /\
    entities st' = entities st /\ emoji_cache st' = emoji_cache st /\
    (length (heap st) <= length (heap st'))%nat /\
    (forall p, (p < length (heap st))%nat -> heap st' !! p = heap st !! p).
Proof.
  unfold Message.channel. rewrite run_bind.
  assert (Hget : exists v, get_channel (Message._channel_id self) st = (Ok v, st)).
  { unfold get_channel, get_entity.
    destruct (to_snowflake _); [|by eexists].
    destruct (entities st !! _); by eexists. }
  destruct Hget as [v ->].
  destruct (negb (truthy (Message._guild_id self)) && negb (truthy v)).
  2: { eexists _, _. split; [reflexivity|]. by repeat split. }
  rewrite run_bind. unfold Message.from_dict_factory, alloc at 1.
  rewrite run_bind.
  match goal with
  | |- context [Message.author self ?s] =>
      destruct (author_run self s) as [a Ha]; rewrite Ha
  end.
  destruct (truthy a); (eexists _, _; split; [reflexivity|]); simpl.
  - rewrite length_alter, length_app. simpl.
    split; [done|]. split; [done|]. split; [lia|].
    intros p Hp. rewrite list_lookup_alter_ne by lia. by rewrite lookup_app_l.
  - rewrite length_app. simpl.
    split; [done|]. split; [done|]. split; [lia|].
    intros p Hp. by rewrite lookup_app_l.
Qed.

Lemma channel_store DM self st :
  let st' := snd (Message.channel DM self st) in
  entities st' = entities st /\ emoji_cache st' = emoji_cache st /\
  (length (heap st) <= length (heap st'))%nat /\
  (forall p, (p < length (heap st))%nat -> heap st' !! p = heap st !! p).
Proof.
  simpl. destruct (channel_run DM self st) as (r & st' & -> & H). exact H.
Qed.

Lemma reachable_emoji_allocated st : reachable st -> emoji_allocated st.
Proof.
  induction 1 as [fetch emoji net|k data st _ IH|DM self st _ IH].
  - unfold emoji_allocated. destruct emoji; simpl; [apply map_Forall_empty|done].
  - by apply emoji_allocated_processor.
  - destruct (channel_store DM self st) as (_ & He & Hlen & _).
    by apply (emoji_allocated_grow st).
Qed.

Lemma detached_put p r k fields : preserving (detached p r) (put k fields).
Proof.
  intros st (Hp & Hne & Hem).
  destruct (unreferenced_put p r k fields st (conj Hp Hne)) as [Hp' Hne'].
  split; [done|]. split; [done|]. by rewrite put_emoji_cache.
Qed.

Lemma detached_alloc p r fields : preserving (detached p r) (alloc fields).
Proof.
  intros st (Hp & Hne & Hem). split; [|done]. simpl.
  rewrite lookup_app_l; [done|]. by eapply lookup_lt_Some.
Qed.

Lemma detached_place_emoji_data p r g data :
  preserving (detached p r) (place_emoji_data g data).
Proof.
  intros st H. unfold place_emoji_data.
  destruct (to_snowflake g); [|done].
  destruct (as_payload data) as [d|]; [|done].
  destruct (payload_id d) as [id|]; [|done].
  destruct (emoji_cache st) as [m|] eqn:Hm.
  - destruct H as (Hp & Hne & Hem). rewrite Hm in Hem.
    pose proof (lookup_lt_Some _ _ _ Hp) as Hlt.
    destruct (m !! id) as [l|] eqn:Hl; simpl.
    + split; [|split; [done|]]; simpl.
      * rewrite list_lookup_alter_ne; [done|].
        by apply (map_Forall_lookup_1 _ _ _ _ Hem Hl).
      * by rewrite Hm.
    + split; [|split; [done|]]; simpl.
      * by rewrite lookup_app_l.
      * apply map_Forall_insert_2; [lia|done].
  - by apply (detached_alloc p r _ st).
Qed.

Lemma detached_delete_guild p r g : preserving (detached p r) (delete_guild g).
Proof.
  intros st (Hp & Hne & Hem). unfold delete_guild. simpl.
  split; [done|]. split; simpl.
  - apply map_Forall_lookup. intros k l Hk.
    apply map_lookup_filter_Some in Hk as [Hk _].
    by apply (map_Forall_lookup_1 _ _ _ _ Hne Hk).
  - destruct (emoji_cache st) as [m|]; [|done]. simpl.
    apply map_Forall_lookup. intros k l Hk.
    apply map_lookup_filter_Some in Hk as [Hk _].
    by apply (map_Forall_lookup_1 _ _ _ _ Hem Hk).
Qed.

Lemma detached_processor p r k data : preserving (detached p r) (processor k data).
Proof.
  apply invariant_processor.
  - apply detached_put.
  - apply detached_alloc.
  - apply detached_place_emoji_data.
  - intros a st H. exact H.
  - intros ids st H. exact H.
  - intros b st H. exact H.
  - intros c st H. exact H.
  - intros _. apply detached_delete_guild.
Qed.

Lemma detached_channel p r DM self :
  preserving (detached p r) (Message.channel DM self).
Proof.
  intros st (Hp & Hne & Hem).
  destruct (channel_store DM self st) as (He & Hc & _ & Hsame).
  unfold detached. rewrite He, Hc. split; [|done].
  rewrite Hsame; [done|]. by eapply lookup_lt_Some.
Qed.

Lemma detached_follows p r st st' :
  detached p r st -> follows st st' -> detached p r st'.
Proof.
  intros H. induction 1 as [|k data st' _ IH|DM self st' _ IH].
  - done.
  - by apply detached_processor.
  - by apply detached_channel.
Qed.

Lemma copy_detached g st :
  allocated st -> emoji_allocated st ->
  detached (length (heap st)) (fields_of g st)
           (set_heap (heap st ++ [fields_of g st]) st).
Proof.
  intros Ha He. split; [|split]; simpl.
  - by rewrite list_lookup_middle.
  - eapply map_Forall_impl; [exact Ha|]. simpl. intros; lia.
  - unfold emoji_allocated in He. destruct (emoji_cache st) as [m|]; [|done].
    eapply map_Forall_impl; [exact He|]. simpl. intros; lia.
Qed.

Lemma guild_update_run data st st1 :
  _on_raw_guild_update data st = (Ok tt, st1) ->
  exists g sa after sc,
    fetch_guild (get "id" data) st = (Ok (VObj g), sa) /\
    place_guild_data (VDict data) (set_heap (heap sa ++ [fields_of g sa]) sa)
    = (Ok after, sc) /\
    st1 = set_trace (trace sc ++
            [Dispatch (GuildUpdate (VObj (length (heap sa))) (VObj after))]) sc.
Proof.
  unfold _on_raw_guild_update. rewrite run_bind.
  destruct (fetch_guild (get "id" data) st) as [[guild|] sa] eqn:Hf; [|discriminate].
  destruct (fetch_guild_object _ _ _ _ Hf) as [g ->].
  rewrite run_bind, copy_object. rewrite run_bind.
  destruct (place_guild_data _ _) as [[after|] sc] eqn:Hp; [|discriminate].
  intros [= <-]. by exists g, sa, after, sc.
Qed.



(** *** Emoji, sticker and ban updates *)

Lemma for_each_quiet_run {A B} (f : A -> M B) l st ys st' :
  (forall a, quiet (f a)) ->
  for_each f l st = (Ok ys, st') ->
  trace st' = trace st /\ length ys = length l.
Proof.
  intros Hq Hrun. split; [|by eapply for_each_length].
  pose proof (quiet_run _ st (quiet_for_each f l Hq)) as H.
  by rewrite Hrun in H.
Qed.

Lemma quiet_before_entry emoji :
  quiet (id ← lift (d ← as_payload emoji; getitem "id" d);
         cached ← get_emoji id; copy cached).
Proof.
  apply quiet_bind; [apply quiet_lift|]. intros id.
  apply quiet_bind; [apply quiet_get_emoji|]. intros cached. apply quiet_copy.
Qed.

Lemma quiet_after_entry guild_id emoji :
  quiet (e ← place_emoji_data guild_id emoji; mret (VObj e)).
Proof.
  apply quiet_bind; [apply quiet_place_emoji_data|]. intros e. apply quiet_ret.
Qed.

(** X14.  When the emojis update processor returns, its event lists one [after]
    record for each emoji of the payload, in the payload's order; [before]
    has one entry for each emoji as well when the emoji cache holds
    something, and is empty when the cache is disabled or holds nothing.
    Nothing else is added to the trace. *)
Theorem emojis_update_lists_every_emoji (data : dict) (st st' : client) :
  _on_raw_guild_emojis_update data st = (Ok tt, st') ->
  exists emojis before after,
    iterate (get "emojis" data) = Ok emojis /\
    trace st' = trace st ++
                [Dispatch (GuildEmojisUpdate (get "guild_id" data) before after)] /\
    length after = length emojis /\
    (emoji_cache_truthy st = true -> length before = length emojis) /\
    (emoji_cache_truthy st = false -> before = []).
Proof.
  unfold _on_raw_guild_emojis_update. rewrite run_bind. unfold gets at 1.
  destruct (emoji_cache_truthy st) eqn:Hc; cbv beta iota.
  - rewrite run_bind. rewrite (run_bind (lift _)). unfold lift at 1.
    destruct (iterate (get "emojis" data)) as [emojis|]; [|discriminate].
    cbv beta iota.
    destruct (for_each _ emojis st) as [[before|] s1] eqn:Hb; [|discriminate].
    destruct (for_each_quiet_run _ _ _ _ _ quiet_before_entry Hb) as [Ht1 Hl1].
    rewrite run_bind. unfold lift at 1. cbv beta iota. rewrite run_bind.
    destruct (for_each _ emojis s1) as [[after|] s2] eqn:Ha; [|discriminate].
    destruct (for_each_quiet_run _ _ _ _ _
                (quiet_after_entry (get "guild_id" data)) Ha) as [Ht2 Hl2].
    intros [= <-]. exists emojis, before, after. simpl.
    rewrite Ht2, Ht1. by repeat split.
  - rewrite run_bind. unfold mret at 1, M_ret at 1. cbv beta iota.
    rewrite run_bind. unfold lift at 1.
    destruct (iterate (get "emojis" data)) as [emojis|]; [|discriminate].
    cbv beta iota. rewrite run_bind.
    destruct (for_each _ emojis st) as [[after|] s2] eqn:Ha; [|discriminate].
    destruct (for_each_quiet_run _ _ _ _ _
                (quiet_after_entry (get "guild_id" data)) Ha) as [Ht2 Hl2].
    intros [= <-]. exists emojis, [], after. simpl.
    rewrite Ht2. by repeat split.
Qed.

Lemma emoji_kept_place_emoji_data id l g data :
  preserving (fun st => exists m, emoji_cache st = Some m /\ m !! id = Some l)
             (place_emoji_data g data).
Proof.
  intros st (m & Hm & Hl). unfold place_emoji_data.
  destruct (to_snowflake g); [|by exists m].
  destruct (as_payload data) as [d|]; [|by exists m].
  destruct (payload_id d) as [id'|]; [|by exists m].
  rewrite Hm. destruct (m !! id') as [l'|] eqn:Hl'; simpl.
  - by exists m.
  - exists (<[id' := length (heap st)]> m). split; [done|].
    rewrite lookup_insert_ne; [done|]. intros ->. congruence.
Qed.


(** X16.  The two list updates differ on a payload without their list: a stickers
    update without ["stickers"] dispatches an event with no stickers and
    changes nothing else, an emojis update without ["emojis"] raises
    [TypeError] and dispatches nothing. *)
Theorem list_update_without_its_list (data : dict) (st : client) :
  (dict_get "stickers" data = None ->
   _on_raw_guild_stickers_update data st =
   (Ok tt, set_trace (trace st ++
             [Dispatch (GuildStickersUpdate (get "guild_id" data) [])]) st)) /\
  (dict_get "emojis" data = None ->
   _on_raw_guild_emojis_update data st = (Raise TypeError, st)).
Proof.
  split; intros H.
  - unfold _on_raw_guild_stickers_update, get_default. rewrite H. reflexivity.
  - unfold _on_raw_guild_emojis_update, get. rewrite H.
    rewrite run_bind. unfold gets at 1. by destruct (emoji_cache_truthy st).
Qed.

(** X17.  A ban and the lifting of a ban treat the cache alike: when either
    processor returns, the user of the payload is cached under the
    identifier the payload gives, the event carries the cached object, and
    no record that was cached has been dropped. *)
Theorem ban_updates_cache_the_user
    (k : update_kind) (data : dict) (st st' : client) :
  k = GUILD_BAN_ADD \/ k = GUILD_BAN_REMOVE ->
  processor k data st = (Ok tt, st') ->
  exists id user,
    embedded_id (get "user" data) = Ok id /\
    entities st' !! KUser id = Some user /\
    trace st' = trace st ++
      [Dispatch ((match k with GUILD_BAN_ADD => BanCreate | _ => BanRemove end)
                   (get "guild_id" data) (VObj user))] /\
    keeps_keys st st'.
Proof.
  intros Hk Hrun.
  assert (Hkeep : keeps_keys st st').
  { pose proof (keeps_keys_processor st k data
                  ltac:(destruct Hk as [-> | ->]; discriminate) st
                  (keeps_keys_refl st)) as H.
    by rewrite Hrun in H. }
  assert (Hplace : forall ev,
            (user ← place_user_data (get "user" data);
             dispatch (ev (get "guild_id" data) (VObj user))) st = (Ok tt, st') ->
            exists id user,
              embedded_id (get "user" data) = Ok id /\
              entities st' !! KUser id = Some user /\
              trace st' = trace st ++ [Dispatch (ev (get "guild_id" data) (VObj user))]).
  { intros ev. rewrite run_bind. unfold place_user_data, place.
    rewrite run_bind. unfold lift at 1. unfold embedded_id.
    destruct (as_payload (get "user" data)) as [d|]; [|discriminate].
    rewrite run_bind. unfold lift at 1. simpl.
    destruct (payload_id d) as [id|]; [|discriminate].
    destruct (put_cached (KUser id) (dict_set "id" (VInt id) d) st) as (l & H1 & H2).
    pose proof (quiet_run _ st (quiet_put (KUser id) (dict_set "id" (VInt id) d))) as Ht.
    destruct (put _ _ st) as [r s1]. simpl in *. subst r.
    intros [= <-]. exists id, l. simpl. by rewrite Ht. }
  destruct Hk as [-> | ->]; simpl in Hrun;
    destruct (Hplace _ Hrun) as (id & user & H1 & H2 & H3);
    exists id, user; by repeat split.
Qed.


(** *** Updates that only inform *)

Lemma only_new_objects_refl st : only_new_objects st st.
Proof. unfold only_new_objects. by repeat split. Qed.

Lemma only_new_objects_alloc st0 fields :
  preserving (only_new_objects st0) (alloc fields).
Proof.
  intros st (He & Hm & Hg & Hlen & Hsame). unfold only_new_objects. simpl.
  rewrite length_app. simpl. repeat split; try done; [lia|].
  intros p Hp. rewrite lookup_app_l by lia. by apply Hsame.
Qed.

Lemma only_new_objects_emit st0 a : preserving (only_new_objects st0) (emit a).
Proof. intros st H. exact H. Qed.

Lemma only_new_objects_record_from_dict st0 data :
  preserving (only_new_objects st0) (record_from_dict data).
Proof.
  unfold record_from_dict. apply preserving_bind; [apply preserving_lift|].
  intros d. apply only_new_objects_alloc.
Qed.


(** *** A guild created twice *)

(** X11.  When the create of a guild is processed again, as after a reconnect,
    the guild keeps its object: the second [GuildJoin] carries the object
    the first one carried, with the second payload written into it. *)
Theorem guild_created_twice_is_one_object
    (data again : dict) (st st1 st2 : client) :
  _on_raw_guild_create data st = (Ok tt, st1) ->
  _on_raw_guild_create again st1 = (Ok tt, st2) ->
  to_snowflake (get "id" again) = to_snowflake (get "id" data) ->
  exists guild,
    last (trace st1) = Some (Dispatch (GuildJoin (VObj guild))) /\
    last (trace st2) = Some (Dispatch (GuildJoin (VObj guild))) /\
    get_guild (get "id" data) st2 = (Ok (VObj guild), st2).
Proof.
  intros H1 H2 Hsame.
  destruct (guild_create_run _ _ _ H1)
    as (id & guild & s & steps & Hid & _ & Hkey & _ & _ & _ & _ & _ & Ht).
  destruct (guild_create_run _ _ _ H2)
    as (id' & guild' & s' & steps' & Hid' & _ & Hkey' & _ & _ & _ & _ & _ & Ht').
  rewrite Hsame, Hid in Hid'. injection Hid' as <-.
  pose proof (keeps_keys_processor st1 GUILD_CREATE again ltac:(discriminate) st1
                (keeps_keys_refl st1) (KGuild id) guild Hkey) as Hkeep.
  simpl in Hkeep. rewrite H2 in Hkeep. simpl in Hkeep.
  rewrite Hkey' in Hkeep. injection Hkeep as ->.
  exists guild. split; [by rewrite Ht, app_assoc, last_snoc|].
  split; [by rewrite Ht', app_assoc, last_snoc|].
  unfold get_guild, get_entity. by rewrite Hid, Hkey'.
Qed.

(** *** The theorems at work *)


(** The create of guild 42. *)
Lemma guild_create_caches_the_guild_witness :
  exists id guild,
    to_snowflake (get "id" joined_payload) = Ok id /\
    get_guild (get "id" joined_payload) joined_client = (Ok (VObj guild), joined_client) /\
    id ∈ guild_ids joined_client /\
    guild_event joined_client = true /\
    last (trace joined_client) = Some (Dispatch (GuildJoin (VObj guild))).
Proof.
  apply (guild_create_caches_the_guild joined_payload
           (fresh_client false false (fun _ => None)) joined_client).
  reflexivity.
Defined.

(** Guild 42 is created, then the user is removed from it. *)
Lemma guild_created_then_left_witness :
  exists id guild st2,
    last (trace joined_client) = Some (Dispatch (GuildJoin (VObj guild))) /\
    _on_raw_guild_delete [("id", VStr "42")] joined_client = (Ok tt, st2) /\
    trace st2 = trace joined_client ++
                [Evict id; Dispatch (GuildLeft id (VObj guild))] /\
    heap st2 = heap joined_client /\
    get_guild (VInt id) st2 = (Ok VNone, st2) /\
    id ∉ guild_ids st2.
Proof.
  apply (guild_created_then_left joined_payload [("id", VStr "42")]
           (fresh_client false false (fun _ => None)) joined_client).
  - reflexivity.
  - reflexivity.
  - reflexivity.
Defined.

(** A payload with a name and no identifier. *)
Lemma guild_update_without_id_changes_nothing_witness :
  let data := [("name", VStr "g")] in
  _on_raw_guild_create data joined_client = (Raise KeyError, joined_client) /\
  _on_raw_guild_update data joined_client = (Raise TypeError, joined_client) /\
  _on_raw_guild_delete data joined_client = (Raise TypeError, joined_client).
Proof.
  simpl.
  apply (guild_update_without_id_changes_nothing [("name", VStr "g")] joined_client).
  reflexivity.
Defined.


(** An emojis update that brings emoji 2 to a client that has cached
    emoji 1. *)
Lemma emojis_update_lists_every_emoji_witness :
  let data := [("guild_id", VStr "42"); ("emojis", VList [VDict [("id", VStr "2")]])] in
  let st' := snd (_on_raw_guild_emojis_update data one_emoji_client) in
  exists emojis before after,
    iterate (get "emojis" data) = Ok emojis /\
    trace st' = trace one_emoji_client ++
                [Dispatch (GuildEmojisUpdate (get "guild_id" data) before after)] /\
    length after = length emojis /\
    (emoji_cache_truthy one_emoji_client = true -> length before = length emojis) /\
    (emoji_cache_truthy one_emoji_client = false -> before = []).
Proof.
  simpl.
  apply (emojis_update_lists_every_emoji
           [("guild_id", VStr "42"); ("emojis", VList [VDict [("id", VStr "2")]])]
           one_emoji_client
           (snd (_on_raw_guild_emojis_update
                   [("guild_id", VStr "42"); ("emojis", VList [VDict [("id", VStr "2")]])]
                   one_emoji_client))).
  reflexivity.
Defined.


(** A payload with the guild's identifier alone. *)
Lemma list_update_without_its_list_witness :
  let data := [("guild_id", VStr "42")] in
  let st := fresh_client false true (fun _ => None) in
  _on_raw_guild_stickers_update data st =
  (Ok tt, set_trace [Dispatch (GuildStickersUpdate (VStr "42") [])] st) /\
  _on_raw_guild_emojis_update data st = (Raise TypeError, st).
Proof.
  simpl.
  destruct (list_update_without_its_list [("guild_id", VStr "42")]
              (fresh_client false true (fun _ => None))) as [H1 H2].
  split; [apply H1; reflexivity | apply H2; reflexivity].
Defined.

(** The ban of user 7 is lifted in a client that has cached nothing. *)
Lemma ban_updates_cache_the_user_witness :
  let data := [("guild_id", VStr "42"); ("user", VDict [("id", VStr "7")])] in
  let st := fresh_client false false (fun _ => None) in
  let st' := snd (processor GUILD_BAN_REMOVE data st) in
  exists id user,
    embedded_id (get "user" data) = Ok id /\
    entities st' !! KUser id = Some user /\
    trace st' = trace st ++
                [Dispatch (BanRemove (get "guild_id" data) (VObj user))] /\
    keeps_keys st st'.
Proof.
  simpl.
  apply (ban_updates_cache_the_user GUILD_BAN_REMOVE
           [("guild_id", VStr "42"); ("user", VDict [("id", VStr "7")])]
           (fresh_client false false (fun _ => None))
           (snd (processor GUILD_BAN_REMOVE
                   [("guild_id", VStr "42"); ("user", VDict [("id", VStr "7")])]
                   (fresh_client false false (fun _ => None))))).
  - by right.
  - reflexivity.
Defined.


(** The create of guild 42 arrives a second time, with a new name. *)
Lemma guild_created_twice_is_one_object_witness :
  let again := [("id", VInt 42); ("name", VStr "New")] in
  let st2 := snd (_on_raw_guild_create again joined_client) in
  exists guild,
    last (trace joined_client) = Some (Dispatch (GuildJoin (VObj guild))) /\
    last (trace st2) = Some (Dispatch (GuildJoin (VObj guild))) /\
    get_guild (get "id" joined_payload) st2 = (Ok (VObj guild), st2).
Proof.
  simpl.
  apply (guild_created_twice_is_one_object joined_payload
           [("id", VInt 42); ("name", VStr "New")]
           (fresh_client false false (fun _ => None)) joined_client
           (snd (_on_raw_guild_create [("id", VInt 42); ("name", VStr "New")]
                   joined_client))).
  - reflexivity.
  - reflexivity.
  - reflexivity.
Defined.

End ProcessorFacts.

(** ** The message accessors and the cache *)

Module AccessorFacts.
Import Py Store Props Behaviour StoreFacts MessageFacts Message.

Lemma place_cached kind data st l st1 :
  place kind data st = (Ok l, st1) ->
  exists n, embedded_id data = Ok n /\ entities st1 !! kind n = Some l.
Proof.
  unfold place, embedded_id. rewrite run_bind. unfold lift at 1.
  destruct (as_payload data) as [d|]; [|discriminate].
  rewrite run_bind. unfold lift at 1. simpl.
  destruct (payload_id d) as [n|]; [|discriminate].
  destruct (put_cached (kind n) (dict_set "id" (VInt n) d) st) as (l' & H1 & H2).
  destruct (put _ _ st) as [r s1]. simpl in *. subst r.
  intros [= <- <-]. by exists n.
Qed.

(** X19.  A channel placed in the cache is what the channel accessor returns for
    a message of that channel, whether the payload and the message write
    the identifier as a number or as its decimal string; the accessor
    leaves the client as it is. *)
Theorem placed_channel_is_the_message_channel
    (DM : Z) (data : value) (self : BaseMessage) (st st1 : client) (c : nat) :
  place_channel_data data st = (Ok c, st1) ->
  to_snowflake (_channel_id self) = embedded_id data ->
  channel DM self st1 = (Ok (VObj c), st1).
Proof.
  intros Hplace Hsame.
  destruct (place_cached _ _ _ _ _ Hplace) as (n & Hn & Hc).
  rewrite Hn in Hsame.
  unfold channel. rewrite run_bind. unfold get_channel, get_entity.
  rewrite Hsame, Hc. cbv beta iota.
  change (truthy (VObj c)) with true.
  by rewrite andb_false_r.
Qed.

Lemma channel_miss_run DM self st :
  (forall n, to_snowflake (_channel_id self) = Ok n ->
             entities st !! KChannel n = None) ->
  truthy (_guild_id self) = false ->
  exists st',
    channel DM self st = (Ok (VObj (length (heap st))), st') /\
    entities st' = entities st /\
    length (heap st') = S (length (heap st)).
Proof.
  intros Hmiss Hg. unfold channel. rewrite run_bind.
  unfold get_channel. rewrite (get_entity_miss _ _ _ Hmiss). rewrite Hg. simpl.
  rewrite run_bind. unfold from_dict_factory, alloc at 1.
  rewrite run_bind.
  match goal with
  | |- context [author self ?s] => destruct (author_run self s) as [a Ha]; rewrite Ha
  end.
  destruct (truthy a); (eexists; split; [reflexivity|]); simpl.
  - rewrite length_alter, length_app. simpl. split; [done|lia].
  - rewrite length_app. simpl. split; [done|lia].
Qed.

(** X20.  The DM channel the accessor makes up is not kept: for a direct message
    whose channel is not cached, reading the channel twice gives two
    different objects, and the cache knows neither. *)
Theorem channel_of_direct_message_is_made_anew
    (DM : Z) (self : BaseMessage) (st : client) :
  (forall n, to_snowflake (_channel_id self) = Ok n ->
             entities st !! KChannel n = None) ->
  truthy (_guild_id self) = false ->
  exists first second st1 st2,
    channel DM self st = (Ok (VObj first), st1) /\
    channel DM self st1 = (Ok (VObj second), st2) /\
    first ≠ second /\
    entities st2 = entities st.
Proof.
  intros Hmiss Hg.
  destruct (channel_miss_run DM self st Hmiss Hg) as (st1 & Hrun1 & He1 & Hl1).
  destruct (channel_miss_run DM self st1) as (st2 & Hrun2 & He2 & Hl2); [|done|].
  { intros n Hn. rewrite He1. by apply Hmiss. }
  exists (length (heap st)), (length (heap st1)), st1, st2.
  split; [done|]. split; [done|]. split; [lia|]. by rewrite He2.
Qed.

(** X21.  The author of a message whose member record is not cached is the cached
    user record: for a message in a guild as for a direct message the
    accessor falls back from the guild's member to the user, and leaves the
    client as it is. *)
Theorem author_falls_back_to_the_user
    (self : BaseMessage) (st : client) (n : Z) (user : nat) :
  truthy (_author_id self) = true ->
  to_snowflake (_author_id self) = Ok n ->
  entities st !! KUser n = Some user ->
  (forall g, to_snowflake (_guild_id self) = Ok g ->
             entities st !! KMember g n = None) ->
  author self st = (Ok (VObj user), st).
Proof.
  intros Ha Hn Hu Hmiss. unfold author. rewrite Ha, run_bind.
  assert (Hm : (if truthy (_guild_id self)
                then get_member (_guild_id self) (_author_id self)
                else mret VNone) st = (Ok VNone, st)).
  { destruct (truthy (_guild_id self)); [|done].
    unfold get_member, get_entity.
    destruct (to_snowflake (_guild_id self)) as [g|] eqn:Hg; [|done].
    by rewrite Hn, (Hmiss g). }
  rewrite Hm. simpl. unfold get_user, get_entity. by rewrite Hn, Hu.
Qed.

(** *** The theorems at work *)

(** Channel 5 arrives with its identifier as a string; a message of guild 9
    names the channel by number. *)
Lemma placed_channel_is_the_message_channel_witness :
  let st1 := snd (place_channel_data (VDict [("id", VStr "5")])
                    (fresh_client false false (fun _ => None))) in
  channel 1 (Build_BaseMessage (VInt 5) VNone (VInt 9) (VInt 7)) st1
  = (Ok (VObj 0), st1).
Proof.
  simpl.
  apply (placed_channel_is_the_message_channel 1 (VDict [("id", VStr "5")])
           (Build_BaseMessage (VInt 5) VNone (VInt 9) (VInt 7))
           (fresh_client false false (fun _ => None))).
  - reflexivity.
  - reflexivity.
Defined.

(** A direct message in channel 5, nothing cached. *)
Lemma channel_of_direct_message_is_made_anew_witness :
  let st := fresh_client false false (fun _ => None) in
  let dm := Build_BaseMessage (VInt 5) VNone VNone (VInt 7) in
  exists first second st1 st2,
    channel 1 dm st = (Ok (VObj first), st1) /\
    channel 1 dm st1 = (Ok (VObj second), st2) /\
    first ≠ second /\
    entities st2 = entities st.
Proof.
  simpl.
  apply (channel_of_direct_message_is_made_anew 1
           (Build_BaseMessage (VInt 5) VNone VNone (VInt 7))
           (fresh_client false false (fun _ => None))).
  - intros n _. apply lookup_empty.
  - reflexivity.
Defined.

(** User 7 is cached, its member record in guild 9 is not. *)
Lemma author_falls_back_to_the_user_witness :
  let st := snd (place_user_data (VDict [("id", VStr "7")])
                   (fresh_client false false (fun _ => None))) in
  author (Build_BaseMessage (VInt 5) VNone (VInt 9) (VInt 7)) st = (Ok (VObj 0), st).
Proof.
  simpl.
  apply (author_falls_back_to_the_user
           (Build_BaseMessage (VInt 5) VNone (VInt 9) (VInt 7))
           (snd (place_user_data (VDict [("id", VStr "7")])
                   (fresh_client false false (fun _ => None)))) 7 0%nat).
  - reflexivity.
  - reflexivity.
  - reflexivity.
  - intros g Hg. vm_compute in Hg. injection Hg as <-. reflexivity.
Defined.

End AccessorFacts.
